(** * AWS SSO helper: profile names, config sections and shell-profile merging

    A shallow embedding of [sso_aws_helper.py].  Python [str] values are
    sequences of Unicode code points; exceptions are an explicit result type;
    the files the program reads and rewrites are explicit state. *)

From Stdlib Require Import String Ascii List NArith Bool Arith Lia.
Import ListNotations.

Set Implicit Arguments.

(** ** Python strings *)

Definition char := N.
Definition str := list char.

(** A source literal (all literals of the program are ASCII). *)
Definition lit (s : string) : str := map N_of_ascii (list_ascii_of_string s).
Arguments lit s%_string.

Definition ch_newline : char := 10%N.
Definition ch_percent : char := 37%N.
Definition ch_lparen : char := 40%N.
Definition ch_rparen : char := 41%N.
Definition ch_dash : char := 45%N.
Definition ch_slash : char := 47%N.
Definition ch_s : char := 115%N.

(** [str.isspace] on one code point (the table of CPython's
    [_PyUnicode_IsWhitespace]). *)
Definition isspace (c : char) : bool :=
  ((9 <=? c) && (c <=? 13) || (28 <=? c) && (c <=? 32)
   || (c =? 133) || (c =? 160) || (c =? 5760)
   || (8192 <=? c) && (c <=? 8202)
   || (c =? 8232) || (c =? 8233) || (c =? 8239) || (c =? 8287)
   || (c =? 12288))%N.

Fixpoint str_eqb (a b : str) : bool :=
  match a, b with
  | [], [] => true
  | x :: a', y :: b' => N.eqb x y && str_eqb a' b'
  | _, _ => false
  end.

Fixpoint lstrip_by (p : char -> bool) (s : str) : str :=
  match s with
  | c :: s' => if p c then lstrip_by p s' else s
  | [] => []
  end.

Definition rstrip_by (p : char -> bool) (s : str) : str :=
  rev (lstrip_by p (rev s)).

(** [s.strip()] *)
Definition strip (s : str) : str := rstrip_by isspace (lstrip_by isspace s).

(** [s.rstrip(c)] for a one-character argument. *)
Definition rstrip_char (c : char) (s : str) : str := rstrip_by (N.eqb c) s.

(** [s.startswith(p)] *)
Fixpoint startswith (p s : str) : bool :=
  match p, s with
  | [], _ => true
  | a :: p', b :: s' => N.eqb a b && startswith p' s'
  | _ :: _, [] => false
  end.

(** [s.endswith(suf)] *)
Definition endswith (suf s : str) : bool := startswith (rev suf) (rev s).

(** [sub in s] *)
Fixpoint contains (sub s : str) : bool :=
  startswith sub s ||
  match s with
  | [] => false
  | _ :: s' => contains sub s'
  end.

(** [s.split(sep)] for a one-character separator. *)
Fixpoint split (sep : char) (s : str) : list str :=
  match s with
  | [] => [[]]
  | c :: s' =>
      if N.eqb c sep then [] :: split sep s'
      else match split sep s' with
           | w :: ws => (c :: w) :: ws
           | [] => [[c]]
           end
  end.

(** [s.split(sep, maxsplit)] for a one-character separator. *)
Fixpoint splitn (sep : char) (maxsplit : nat) (s : str) {struct s} : list str :=
  match maxsplit with
  | O => [s]
  | S m =>
      match s with
      | [] => [[]]
      | c :: s' =>
          if N.eqb c sep then [] :: splitn sep m s'
          else match splitn sep maxsplit s' with
               | w :: ws => (c :: w) :: ws
               | [] => [[c]]
               end
      end
  end.

(** [sep.join(parts)] *)
Fixpoint join (sep : str) (parts : list str) : str :=
  match parts with
  | [] => []
  | [x] => x
  | x :: rest => x ++ sep ++ join sep rest
  end.

(** ** Exceptions *)

Inductive exn : Type :=
| IndexError
| ValueError
| OSError
| NoOptionError
| NoSectionError
| FileNotFoundError
| MalformedProfileNameError.  (* named by the specification only; the program never raises it *)

Inductive result (A : Type) : Type :=
| Ok (a : A)
| Raise (e : exn).
Arguments Ok {A} a.
Arguments Raise {A} e.

Definition bind {A B : Type} (r : result A) (k : A -> result B) : result B :=
  match r with
  | Ok a => k a
  | Raise e => Raise e
  end.

Notation "x <- r ;; k" := (bind r (fun x => k))
  (at level 61, r at next level, right associativity).

(** [xs[i]] *)
Definition index {A : Type} (xs : list A) (i : nat) : result A :=
  match nth_error xs i with
  | Some a => Ok a
  | None => Raise IndexError
  end.

(** ** Profile names *)

(** [f"sso-{account_id}-{role_name}"] in [setup_profiles]. *)
Definition format_profile_name (account_id role_name : str) : str :=
  lit "sso-" ++ account_id ++ lit "-" ++ role_name.

(** The two extraction lines of [_update_config_file]:
    [profile_name.split('-')[1]] and [profile_name.split('-', 2)[2]]. *)
Definition parse_profile_name (profile_name : str) : result (str * str) :=
  account_id <- index (split ch_dash profile_name) 1 ;;
  role_name <- index (splitn ch_dash 2 profile_name) 2 ;;
  Ok (account_id, role_name).

(** The start-URL fix-up of [_update_config_file]. *)
Definition normalize_sso_start_url (sso_start_url : str) : str :=
  if negb (endswith (lit "/#") sso_start_url)
  then rstrip_char ch_slash sso_start_url ++ lit "/#"
  else sso_start_url.

(** ** The AWS CLI config document ([configparser.ConfigParser])

    A parser object holds the [DEFAULT] options and an insertion-ordered
    mapping from section names to insertion-ordered option/value mappings. *)

Fixpoint assoc_get {V : Type} (k : str) (d : list (str * V)) : option V :=
  match d with
  | [] => None
  | (k', v) :: d' => if str_eqb k k' then Some v else assoc_get k d'
  end.

(** [d[k] = v] on an insertion-ordered dict: overwrite in place, or append. *)
Fixpoint assoc_set {V : Type} (k : str) (v : V) (d : list (str * V)) : list (str * V) :=
  match d with
  | [] => [(k, v)]
  | (k', v') :: d' =>
      if str_eqb k k' then (k', v) :: d' else (k', v') :: assoc_set k v d'
  end.

Definition section := list (str * str).

Record ConfigParser : Type := {
  cp_defaults : section;
  cp_sections : list (str * section)
}.

Definition empty_parser : ConfigParser :=
  {| cp_defaults := []; cp_sections := [] |}.

Definition default_section : str := lit "DEFAULT".

(** [value.replace('%%', '')] *)
Fixpoint drop_escaped_percent (s : str) : str :=
  match s with
  | a :: ((b :: s') as t) =>
      if N.eqb a ch_percent && N.eqb b ch_percent then drop_escaped_percent s'
      else a :: drop_escaped_percent t
  | _ => s
  end.

(** Length of a match of [%\(([^)]+)\)s] at the head of [s], if any. *)
Definition keycre_match (s : str) : option nat :=
  match s with
  | a :: b :: rest =>
      if N.eqb a ch_percent && N.eqb b ch_lparen then
        let after := lstrip_by (fun c => negb (N.eqb c ch_rparen)) rest in
        let name_len := length rest - length after in
        match after with
        | c :: d :: _ =>
            if negb (name_len =? 0) && N.eqb c ch_rparen && N.eqb d ch_s
            then Some (name_len + 4) else None
        | _ => None
        end
      else None
  | _ => None
  end.

(** [_KEYCRE.sub('', s)]; [skip] counts the characters of the current match
    still to be dropped. *)
Fixpoint keycre_sub (skip : nat) (s : str) : str :=
  match s with
  | [] => []
  | c :: s' =>
      match skip with
      | S k => keycre_sub k s'
      | O =>
          match keycre_match s with
          | Some n => keycre_sub (pred n) s'
          | None => c :: keycre_sub 0 s'
          end
      end
  end.

(** [BasicInterpolation.before_set]: a stray [%] is refused. *)
Definition before_set (value : str) : result str :=
  let tmp_value := keycre_sub 0 (drop_escaped_percent value) in
  if contains [ch_percent] tmp_value then Raise ValueError else Ok value.

(** [RawConfigParser.set]: the value is checked unless empty, then stored in
    the [DEFAULT] options (for an empty or default section name) or in the
    named section.  The option names this program passes are lower-case
    literals, on which [optionxform] is the identity. *)
Definition cp_set (cp : ConfigParser) (sec opt value : str) : result ConfigParser :=
  _ <- match value with [] => Ok value | _ => before_set value end ;;
  if str_eqb sec [] || str_eqb sec default_section then
    Ok {| cp_defaults := assoc_set opt value (cp_defaults cp);
          cp_sections := cp_sections cp |}
  else
    match assoc_get sec (cp_sections cp) with
    | Some d =>
        Ok {| cp_defaults := cp_defaults cp;
              cp_sections := assoc_set sec (assoc_set opt value d) (cp_sections cp) |}
    | None => Raise NoSectionError
    end.

(** [read_dict({sec: items})]: the section is created when missing (the
    duplicate-section and default-section errors of [add_section] are
    swallowed), then every item is set. *)
Definition read_dict (cp : ConfigParser) (sec : str) (items : section) : result ConfigParser :=
  let cp1 :=
    if str_eqb sec default_section then cp
    else match assoc_get sec (cp_sections cp) with
         | Some _ => cp
         | None => {| cp_defaults := cp_defaults cp;
                      cp_sections := cp_sections cp ++ [(sec, [])] |}
         end in
  fold_left (fun acc kv => cp' <- acc ;; cp_set cp' sec (fst kv) (snd kv)) items (Ok cp1).

(** [config[key] = value]: an existing section is emptied and refilled. *)
Definition setitem (cp : ConfigParser) (key : str) (value : section) : result ConfigParser :=
  let cp0 :=
    if str_eqb key default_section then
      {| cp_defaults := []; cp_sections := cp_sections cp |}
    else match assoc_get key (cp_sections cp) with
         | Some _ => {| cp_defaults := cp_defaults cp;
                        cp_sections := assoc_set key [] (cp_sections cp) |}
         | None => cp
         end in
  read_dict cp0 key value.

(** The settings of [sso_config.ini] as the [AWSConfig] properties return them
    (a property raises when its option is missing). *)
Record AWSConfig : Type := {
  sso_start_url : result str;
  sso_region : result str;
  default_region : result str;
  output_format : result str
}.

(** The dict literal written to both sections. *)
Definition profile_settings (aws_config : AWSConfig) (url account_id role_name : str)
  : result section :=
  region <- sso_region aws_config ;;
  dflt <- default_region aws_config ;;
  out <- output_format aws_config ;;
  Ok [ (lit "sso_start_url", url);
       (lit "sso_region", region);
       (lit "sso_account_id", account_id);
       (lit "sso_role_name", role_name);
       (lit "region", dflt);
       (lit "output", out) ].

Definition named_section (profile_name : str) : str := lit "profile " ++ profile_name.

(** The in-memory part of [_update_config_file]: from the split of the profile
    name to the two section assignments. *)
Definition upsert_sections (aws_config : AWSConfig) (profile_name : str)
  (config : ConfigParser) : result ConfigParser :=
  parsed <- parse_profile_name profile_name ;;
  let account_id := fst parsed in
  let role_name := snd parsed in
  url <- sso_start_url aws_config ;;
  let url := normalize_sso_start_url url in
  d1 <- profile_settings aws_config url account_id role_name ;;
  config <- setitem config (lit "default") d1 ;;
  d2 <- profile_settings aws_config url account_id role_name ;;
  setitem config (named_section profile_name) d2.

(** The config file on disk: its parsed content when it exists, and whether it
    can be opened for writing. *)
Record config_store : Type := {
  config_file : option ConfigParser;
  config_writable : bool
}.

(** [config = ConfigParser(); if config_file.exists(): config.read(config_file)] *)
Definition read_config (st : config_store) : ConfigParser :=
  match config_file st with
  | Some c => c
  | None => empty_parser
  end.

Definition _update_config_file (aws_config : AWSConfig) (profile_name : str)
  (st : config_store) : result config_store :=
  let config := read_config st in
  config <- upsert_sections aws_config profile_name config ;;
  if config_writable st
  then Ok {| config_file := Some config; config_writable := true |}
  else Raise OSError.

Definition update_profile (aws_config : AWSConfig) (account_id role_name profile_name : str)
  (st : config_store) : result config_store :=
  _update_config_file aws_config profile_name st.




(** ** Shell profile files *)

Definition ch_dquote : char := 34%N.

(** [line.strip() == ""] *)
Definition is_blank (line : str) : bool := str_eqb (strip line) [].

(** [content.split('\n') if content else []] *)
Definition lines_of (content : str) : list str :=
  match content with
  | [] => []
  | _ => split ch_newline content
  end.

(** [new_lines and new_lines[-1].strip() != ""] *)
Definition needs_blank (new_lines : list str) : bool :=
  match new_lines with
  | [] => false
  | _ => negb (is_blank (last new_lines []))
  end.

(** [if new_lines and new_lines[-1].strip() != "": new_lines.append("")] *)
Definition with_spacing (new_lines : list str) : list str :=
  if needs_blank new_lines then new_lines ++ [[]] else new_lines.

(** Number of lines satisfying a predicate. *)
Definition count_lines (p : str -> bool) (ls : list str) : nat :=
  length (filter p ls).

Module Bash.

Definition aws_export (default_profile : str) : str :=
  lit "export AWS_DEFAULT_PROFILE=" ++ default_profile.

Definition clear_aws_alias : str :=
  lit "alias clear_aws='unset AWS_ACCESS_KEY_ID AWS_SECRET_ACCESS_KEY AWS_SESSION_TOKEN AWS_DEFAULT_PROFILE'".

(** [line.strip().startswith("export AWS_DEFAULT_PROFILE=")] *)
Definition is_export (line : str) : bool :=
  startswith (lit "export AWS_DEFAULT_PROFILE=") (strip line).

(** [clear_aws_alias in line] *)
Definition has_alias (line : str) : bool := contains clear_aws_alias line.

Record state : Type := {
  new_lines : list str;
  aws_profile_added : bool;
  blank_line_count : nat
}.

Definition init : state :=
  {| new_lines := []; aws_profile_added := false; blank_line_count := 0 |}.

(** The body of [for line in lines]. *)
Definition step (default_profile : str) (st : state) (line : str) : state :=
  if is_blank line then
    let n := blank_line_count st + 1 in
    {| new_lines := if n <=? 1 then new_lines st ++ [line] else new_lines st;
       aws_profile_added := aws_profile_added st;
       blank_line_count := n |}
  else if is_export line then
    if negb (aws_profile_added st) then
      {| new_lines := new_lines st ++ [aws_export default_profile];
         aws_profile_added := true;
         blank_line_count := 0 |}
    else
      {| new_lines := new_lines st;
         aws_profile_added := aws_profile_added st;
         blank_line_count := 0 |}
  else
    {| new_lines := new_lines st ++ [line];
       aws_profile_added := aws_profile_added st;
       blank_line_count := 0 |}.

Definition pass (default_profile : str) (lines : list str) : state :=
  fold_left (step default_profile) lines init.

(** [if not aws_profile_added: ...] *)
Definition add_export (default_profile : str) (st : state) : list str :=
  if negb (aws_profile_added st)
  then with_spacing (new_lines st) ++ [aws_export default_profile]
  else new_lines st.

(** [if clear_aws_alias not in '\n'.join(new_lines): ...] *)
Definition add_alias (new_lines : list str) : list str :=
  if negb (contains clear_aws_alias (join [ch_newline] new_lines))
  then new_lines ++ [clear_aws_alias]
  else new_lines.

(** The lines written back, from the lines read. *)
Definition merge (default_profile : str) (lines : list str) : list str :=
  add_alias (add_export default_profile (pass default_profile lines)).

(** The text written to [.bashrc], from the text read (the empty text when
    the file does not exist). *)
Definition rewrite (default_profile content : str) : str :=
  join [ch_newline] (merge default_profile (lines_of content)).

End Bash.

Module PowerShell.

Definition aws_env (default_profile : str) : str :=
  lit "$env:AWS_DEFAULT_PROFILE = '" ++ default_profile ++ lit "'".

(** The triple-quoted function text. *)
Definition clear_aws_function : str :=
  lit "function Clear-AWS {" ++ [ch_newline]
  ++ lit "    Remove-Item Env:AWS_ACCESS_KEY_ID,Env:AWS_SECRET_ACCESS_KEY,Env:AWS_SESSION_TOKEN -ErrorAction SilentlyContinue"
  ++ [ch_newline]
  ++ lit "    $env:AWS_DEFAULT_PROFILE = 'default'" ++ [ch_newline]
  ++ lit "    Write-Host " ++ [ch_dquote]
  ++ lit "Cleared AWS environment variables and set default profile"
  ++ [ch_dquote] ++ [ch_newline]
  ++ lit "}".

(** ["$env:AWS_DEFAULT_PROFILE" in line] *)
Definition is_env (line : str) : bool :=
  contains (lit "$env:AWS_DEFAULT_PROFILE") line.

(** ["function Clear-AWS" in line] *)
Definition is_function (line : str) : bool :=
  contains (lit "function Clear-AWS") line.

Record state : Type := {
  new_lines : list str;
  aws_profile_added : bool;
  clear_aws_added : bool;
  blank_line_count : nat
}.

Definition init : state :=
  {| new_lines := []; aws_profile_added := false;
     clear_aws_added := false; blank_line_count := 0 |}.

(** The body of [for line in lines]. *)
Definition step (default_profile : str) (st : state) (line : str) : state :=
  if is_blank line then
    let n := blank_line_count st + 1 in
    {| new_lines := if n <=? 1 then new_lines st ++ [line] else new_lines st;
       aws_profile_added := aws_profile_added st;
       clear_aws_added := clear_aws_added st;
       blank_line_count := n |}
  else if is_env line then
    if negb (aws_profile_added st) then
      {| new_lines := new_lines st ++ [aws_env default_profile];
         aws_profile_added := true;
         clear_aws_added := clear_aws_added st;
         blank_line_count := 0 |}
    else
      {| new_lines := new_lines st;
         aws_profile_added := aws_profile_added st;
         clear_aws_added := clear_aws_added st;
         blank_line_count := 0 |}
  else if is_function line then
    {| new_lines := new_lines st ++ [line];
       aws_profile_added := aws_profile_added st;
       clear_aws_added := true;
       blank_line_count := 0 |}
  else
    {| new_lines := new_lines st ++ [line];
       aws_profile_added := aws_profile_added st;
       clear_aws_added := clear_aws_added st;
       blank_line_count := 0 |}.

Definition pass (default_profile : str) (lines : list str) : state :=
  fold_left (step default_profile) lines init.

(** [if not aws_profile_added: ...] *)
Definition add_env (default_profile : str) (st : state) : list str :=
  if negb (aws_profile_added st)
  then with_spacing (new_lines st) ++ [aws_env default_profile]
  else new_lines st.

(** [if not clear_aws_added: ...] *)
Definition add_function (added : bool) (new_lines : list str) : list str :=
  if negb added
  then with_spacing new_lines ++ split ch_newline clear_aws_function
  else new_lines.

(** The lines written back, from the lines read. *)
Definition merge (default_profile : str) (lines : list str) : list str :=
  let st := pass default_profile lines in
  add_function (clear_aws_added st) (add_env default_profile st).

(** The text written to the PowerShell profile, from the text read. *)
Definition rewrite (default_profile content : str) : str :=
  join [ch_newline] (merge default_profile (lines_of content)).

End PowerShell.

(** ** The three shell adapters on the machine's state *)

(** A text file as the program finds it: missing, readable with some text,
    or raising on [open]/[read]. *)
Inductive file : Type :=
| Absent
| Text (content : str)
| Unreadable.

(** [registry_env] is the user's [Environment] registry key, as value names
    and values; [None] where [winreg] cannot be imported or the key cannot
    be opened for writing. *)
Record machine : Type := {
  bashrc : file;
  ps_profile : file;
  registry_env : option (list (str * str))
}.

Definition _setup_bash_profile (default_profile : str) (m : machine) : machine :=
  match bashrc m with
  | Unreadable => m
  | Absent =>
      {| bashrc := Text (Bash.rewrite default_profile []);
         ps_profile := ps_profile m; registry_env := registry_env m |}
  | Text content =>
      {| bashrc := Text (Bash.rewrite default_profile content);
         ps_profile := ps_profile m; registry_env := registry_env m |}
  end.

Definition _setup_powershell_profile (default_profile : str) (m : machine) : machine :=
  match ps_profile m with
  | Unreadable => m
  | Absent =>
      {| bashrc := bashrc m;
         ps_profile := Text (PowerShell.rewrite default_profile []);
         registry_env := registry_env m |}
  | Text content =>
      {| bashrc := bashrc m;
         ps_profile := Text (PowerShell.rewrite default_profile content);
         registry_env := registry_env m |}
  end.

Definition _setup_cmd_profile (default_profile : str) (m : machine) : machine :=
  match registry_env m with
  | None => m
  | Some env =>
      {| bashrc := bashrc m; ps_profile := ps_profile m;
         registry_env := Some (assoc_set (lit "AWS_DEFAULT_PROFILE") default_profile env) |}
  end.

(** [default_profile = "default"] in [setup_global_profile], the only value
    the adapters are ever called with. *)
Definition default_profile : str := lit "default".

Definition setup_global_profile (profile_names : list str) (m : machine) : machine :=
  match profile_names with
  | [] => m
  | _ =>
      let m := _setup_bash_profile default_profile m in
      let m := _setup_powershell_profile default_profile m in
      _setup_cmd_profile default_profile m
  end.

(** The number of occurrences of a character in a string. *)
Definition count_char (c : char) (s : str) : nat := count_occ N.eq_dec s c.

(** ** Auxiliary notions used in the statements *)

(** Whether [RawConfigParser.set] accepts a value. *)
Definition value_ok (v : str) : bool :=
  match v with
  | [] => true
  | _ => match before_set v with
         | Ok _ => true
         | Raise _ => false
         end
  end.

(** The dict obtained by assigning the items one by one to an empty dict. *)
Definition dict_of (items : section) : section :=
  fold_left (fun d kv => assoc_set (fst kv) (snd kv) d) items [].

(** The config file after a call of [_update_config_file], whether it
    returned or raised (a call that raises has written nothing). *)
Definition config_after (aws_config : AWSConfig) (profile_name : str)
  (st : config_store) : config_store :=
  match _update_config_file aws_config profile_name st with
  | Ok st' => st'
  | Raise _ => st
  end.

(** The sections other than the two that an update of [profile_name] assigns. *)
Definition other_section (profile_name : str) (entry : str * section) : bool :=
  negb (str_eqb (fst entry) (lit "default"))
  && negb (str_eqb (fst entry) (named_section profile_name)).

(** The blank-line clean-up on its own: of every run of blank lines only the
    first is kept ([prev_blank] tells whether the line before was blank). *)
Fixpoint collapse_blanks (prev_blank : bool) (lines : list str) : list str :=
  match lines with
  | [] => []
  | l :: rest =>
      if is_blank l
      then (if prev_blank then [] else [l]) ++ collapse_blanks true rest
      else l :: collapse_blanks false rest
  end.

(** ** Sample inputs *)

Definition sample_config : AWSConfig :=
  {| sso_start_url := Ok (lit "https://d-abc123.awsapps.com/start");
     sso_region := Ok (lit "us-east-1");
     default_region := Ok (lit "us-west-2");
     output_format := Ok (lit "json") |}.

Definition sample_profile_name : str := lit "sso-111111111111-AdministratorAccess".

(** A config file that already has a stale [default] section and a section
    of another profile. *)
Definition sample_store : config_store :=
  {| config_file :=
       Some {| cp_defaults := [];
               cp_sections :=
                 [ (lit "profile legacy", [(lit "region", lit "eu-west-1")]);
                   (lit "default", [(lit "aws_access_key_id", lit "AKIAOLD")]) ] |};
     config_writable := true |}.



(** A profile file that mentions none of the directives. *)
Definition sample_lines : list str :=
  [ lit "# my settings"; lit "Set-Alias ll Get-ChildItem" ].

(** A machine with an existing [.bashrc], no PowerShell profile yet, and a
    registry. *)
Definition sample_machine : machine :=
  {| bashrc := Text (lit "# my settings" ++ [ch_newline] ++ lit "export AWS_DEFAULT_PROFILE=dev");
     ps_profile := Absent;
     registry_env := Some [(lit "PATH", lit "C:\Windows")] |}.

(** ** Further notions used in the statements *)




(** A config file that exists but cannot be opened for writing. *)
Definition sample_locked_store : config_store :=
  {| config_file := config_file sample_store; config_writable := false |}.

(** ** The remaining functions of the program *)

(** Errors other than those of the config update. *)
Inductive error : Type :=
| Builtin (e : exn)
| KeyError
| JSONDecodeError
| CalledProcessError.

Inductive outcome (A : Type) : Type :=
| Returned (a : A)
| Raised (e : error).
Arguments Returned {A} a.
Arguments Raised {A} e.

Definition lift {A : Type} (r : result A) : outcome A :=
  match r with
  | Ok a => Returned a
  | Raise e => Raised (Builtin e)
  end.

Definition obind {A B : Type} (r : outcome A) (k : A -> outcome B) : outcome B :=
  match r with
  | Returned a => k a
  | Raised e => Raised e
  end.

Notation "x <~ r ;; k" := (obind r (fun x => k))
  (at level 61, r at next level, right associativity).

(** [d[k]] on a dict *)
Definition dict_lookup (k : str) (d : list (str * str)) : outcome str :=
  match assoc_get k d with
  | Some v => Returned v
  | None => Raised KeyError
  end.

(** [key in config] *)
Definition cp_contains (key : str) (cp : ConfigParser) : bool :=
  str_eqb key default_section
  || match assoc_get key (cp_sections cp) with
     | Some _ => true
     | None => false
     end.

(** [AWSSSOManager.ensure_sso_profile_exists]; [sso_profile] is the
    [AWSConfig] property of that name, as it returns or raises. *)
Definition ensure_sso_profile_exists (aws_config : AWSConfig) (sso_profile : result str)
  (st : config_store) : result config_store :=
  let config := read_config st in
  name <- sso_profile ;;
  let profile_section := named_section name in
  if negb (cp_contains profile_section config) then
    url <- sso_start_url aws_config ;;
    region <- sso_region aws_config ;;
    dflt <- default_region aws_config ;;
    out <- output_format aws_config ;;
    config <- setitem config profile_section
                [ (lit "sso_start_url", url);
                  (lit "sso_region", region);
                  (lit "region", dflt);
                  (lit "output", out) ] ;;
    if config_writable st
    then Ok {| config_file := Some config; config_writable := true |}
    else Raise OSError
  else Ok st.

(** [AWSProfileManager._update_credentials_file]; [st] is the credentials
    file. *)
Definition _update_credentials_file (credentials : list (str * str)) (profile_name : str)
  (st : config_store) : outcome config_store :=
  let config := read_config st in
  key_id <~ dict_lookup (lit "accessKeyId") credentials ;;
  secret <~ dict_lookup (lit "secretAccessKey") credentials ;;
  token <~ dict_lookup (lit "sessionToken") credentials ;;
  config <~ lift (setitem config profile_name
                    [ (lit "aws_access_key_id", key_id);
                      (lit "aws_secret_access_key", secret);
                      (lit "aws_session_token", token) ]) ;;
  if config_writable st
  then Returned {| config_file := Some config; config_writable := true |}
  else Raised (Builtin OSError).

Module SSOTokenManager.

(** An entry of the SSO cache directory: its [suffix], its modification time
    (only the order of the times is used) and what
    [json.load(f)['accessToken']] gives for it. *)
Record cache_file : Type := {
  suffix : str;
  st_mtime : N;
  accessToken : outcome str
}.

Definition is_json (f : cache_file) : bool := str_eqb (suffix f) (lit ".json").

(** [max(best :: rest, key=lambda f: f.stat().st_mtime)]: a later entry
    replaces the current one only when its key is strictly larger. *)
Fixpoint max_by_mtime (best : cache_file) (rest : list cache_file) : cache_file :=
  match rest with
  | [] => best
  | f :: rest' =>
      max_by_mtime (if (st_mtime best <? st_mtime f)%N then f else best) rest'
  end.

(** [cache_dir] is the listing of the cache directory, [None] when the
    directory does not exist. *)
Definition get_latest_access_token (cache_dir : option (list cache_file)) : outcome str :=
  match cache_dir with
  | None => Raised (Builtin FileNotFoundError)
  | Some entries =>
      match filter is_json entries with
      | [] => Raised (Builtin FileNotFoundError)
      | f :: rest => accessToken (max_by_mtime f rest)
      end
  end.

End SSOTokenManager.

(** The directory service as [get_available_roles] uses it. *)
Record sso_directory : Type := {
  cached_token : outcome str;
  sso_client : outcome unit;
  list_accounts : outcome (list str);
  list_account_roles : str -> outcome (list str)
}.

Definition get_available_roles (dir : sso_directory) : outcome (list (str * str)) :=
  _ <~ cached_token dir ;;
  _ <~ sso_client dir ;;
  accounts <~ list_accounts dir ;;
  fold_left
    (fun acc account =>
       available_roles <~ acc ;;
       roles <~ list_account_roles dir account ;;
       Returned (available_roles ++ map (fun role => (account, role)) roles))
    accounts (Returned []).





(** [arn.split('/')[-1]], the user shown by [verify_credentials]. *)
Definition arn_user (arn : str) : result str :=
  match rev (split ch_slash arn) with
  | u :: _ => Ok u
  | [] => Raise IndexError
  end.

(** The four names cleared by [detect_and_clear_shell_variables]. *)
Definition aws_env_vars : list str :=
  [ lit "AWS_ACCESS_KEY_ID"; lit "AWS_SECRET_ACCESS_KEY";
    lit "AWS_SESSION_TOKEN"; lit "AWS_DEFAULT_PROFILE" ].

(** [del os.environ[var]] *)
Definition environ_del (var : str) (environ : list (str * str)) : list (str * str) :=
  filter (fun kv => negb (str_eqb var (fst kv))) environ.

(** The first loop of [detect_and_clear_shell_variables]: the environment
    left, and the names reported as cleared. *)
Definition clear_python_environment (environ : list (str * str))
  : list (str * str) * list str :=
  fold_left
    (fun acc var =>
       match assoc_get var (fst acc) with
       | Some _ => (environ_del var (fst acc), snd acc ++ [var])
       | None => acc
       end)
    aws_env_vars (environ, []).




(** ** Further sample inputs *)

Definition sample_credentials : list (str * str) :=
  [ (lit "accessKeyId", lit "ASIAEXAMPLE");
    (lit "secretAccessKey", lit "secret");
    (lit "sessionToken", lit "token") ].

(** A cache directory with a lock file and two token files. *)
Definition sample_cache : list SSOTokenManager.cache_file :=
  [ {| SSOTokenManager.suffix := lit ".lock"; SSOTokenManager.st_mtime := 900;
       SSOTokenManager.accessToken := Raised JSONDecodeError |};
    {| SSOTokenManager.suffix := lit ".json"; SSOTokenManager.st_mtime := 100;
       SSOTokenManager.accessToken := Returned (lit "old") |};
    {| SSOTokenManager.suffix := lit ".json"; SSOTokenManager.st_mtime := 200;
       SSOTokenManager.accessToken := Returned (lit "new") |} ].

(** A directory with two accounts; listing the roles of the second fails. *)
Definition sample_directory : sso_directory :=
  {| cached_token := Returned (lit "token");
     sso_client := Returned tt;
     list_accounts := Returned [lit "111111111111"; lit "222222222222"];
     list_account_roles :=
       fun account =>
         if str_eqb account (lit "111111111111")
         then Returned [lit "Admin"; lit "ReadOnly"]
         else Raised KeyError |}.


Definition sample_environ : list (str * str) :=
  [ (lit "PATH", lit "/usr/bin");
    (lit "AWS_SESSION_TOKEN", lit "stale");
    (lit "HOME", lit "/home/me");
    (lit "AWS_ACCESS_KEY_ID", lit "AKIASTALE") ].

(** ** Tidy line sequences *)

(** Whether the output so far ends in a blank line ([prev_blank] answers for
    the empty output). *)
Definition ends_blank_from (prev_blank : bool) (ls : list str) : bool :=
  match ls with
  | [] => prev_blank
  | _ => is_blank (last ls [])
  end.

Definition ends_blank (ls : list str) : bool := ends_blank_from false ls.

(** No two blank lines in a row ([prev_blank]: the line before the first one
    was blank). *)
Fixpoint no_double_blank (prev_blank : bool) (ls : list str) : bool :=
  match ls with
  | [] => true
  | l :: rest =>
      if is_blank l then negb prev_blank && no_double_blank true rest
      else no_double_blank false rest
  end.

(** A line holds no line break. *)
Definition single_line (l : str) : Prop := ~ In ch_newline l.

(** The lines a user wrote that the POSIX adapter must leave alone. *)
Definition bash_user_line (l : str) : bool :=
  negb (is_blank l) && negb (Bash.is_export l).

(** The lines a user wrote that the PowerShell adapter must leave alone. *)
Definition ps_user_line (l : str) : bool :=
  negb (is_blank l) && negb (PowerShell.is_env l).

(** A PowerShell line that counts as the helper function already present. *)
Definition ps_function_line (l : str) : bool :=
  negb (is_blank l) && negb (PowerShell.is_env l) && PowerShell.is_function l.

(** A [.bashrc] as the adapter leaves it. *)
Definition sample_configured_bashrc : str :=
  lit "# my settings" ++ [ch_newline]
  ++ lit "export AWS_DEFAULT_PROFILE=default" ++ [ch_newline]
  ++ Bash.clear_aws_alias.

(** A [.bashrc] with an older export line. *)
Definition sample_bashrc : str :=
  lit "# my settings" ++ [ch_newline] ++ lit "export AWS_DEFAULT_PROFILE=dev".

(** The helper block without its own assignment line, as a second run of the
    PowerShell adapter leaves it. *)
Definition clear_aws_block_without_assignment : list str :=
  [ lit "function Clear-AWS {";
    lit "    Remove-Item Env:AWS_ACCESS_KEY_ID,Env:AWS_SECRET_ACCESS_KEY,Env:AWS_SESSION_TOKEN -ErrorAction SilentlyContinue";
    lit "    Write-Host " ++ [ch_dquote]
      ++ lit "Cleared AWS environment variables and set default profile"
      ++ [ch_dquote];
    lit "}" ].

(** A PowerShell profile as two runs of the adapter leave it. *)
Definition sample_configured_ps_profile : str :=
  join [ch_newline]
    ([PowerShell.aws_env default_profile; []] ++ clear_aws_block_without_assignment).

(** A PowerShell profile with an older assignment and a helper of its own. *)
Definition sample_ps_profile : str :=
  lit "$env:AWS_DEFAULT_PROFILE = 'dev'" ++ [ch_newline]
  ++ lit "function Clear-AWS { Remove-Item Env:AWS_SESSION_TOKEN }".

(** A [.bashrc] with a run of five blank lines between two lines. *)
Definition sample_spaced_bashrc : str :=
  lit "# my settings" ++ repeat ch_newline 6 ++ lit "export PATH=$HOME/bin:$PATH".

(** A PowerShell profile with a run of five blank lines between two lines. *)
Definition sample_spaced_ps_profile : str :=
  lit "# my settings" ++ repeat ch_newline 6 ++ lit "Set-Alias ll Get-ChildItem".


(** * Properties *)

Unset Implicit Arguments.

(** ** Strings *)

Lemma str_eqb_refl (a : str) : str_eqb a a = true.
Proof.
  induction a as [|x a IH]; simpl; [reflexivity|].
  now rewrite N.eqb_refl, IH.
Qed.

Lemma str_eqb_eq (a b : str) : str_eqb a b = true <-> a = b.
Proof.
  split; [|intros ->; apply str_eqb_refl].
  revert b; induction a as [|x a IH]; intros [|y b]; simpl; try easy.
  intros H. apply andb_true_iff in H as [Hx Hab].
  apply N.eqb_eq in Hx. f_equal; auto.
Qed.

Lemma str_eqb_neq (a b : str) : str_eqb a b = false <-> a <> b.
Proof.
  rewrite <- str_eqb_eq. destruct (str_eqb a b); split; congruence.
Qed.

Lemma startswith_app (p s : str) : startswith p (p ++ s) = true.
Proof.
  induction p as [|a p IH]; simpl; [reflexivity|].
  now rewrite N.eqb_refl.
Qed.

Lemma startswith_iff (p s : str) :
  startswith p s = true <-> exists t, s = p ++ t.
Proof.
  split.
  - revert s; induction p as [|a p IH]; intros s H.
    + now exists s.
    + destruct s as [|b s]; simpl in H; [discriminate|].
      apply andb_true_iff in H as [Hab H].
      apply N.eqb_eq in Hab. subst b.
      destruct (IH _ H) as [t ->]. now exists t.
  - intros [t ->]. apply startswith_app.
Qed.

Lemma contains_of_startswith (sub s : str) :
  startswith sub s = true -> contains sub s = true.
Proof.
  intros H. destruct s; simpl; now rewrite H.
Qed.

Lemma contains_iff (sub s : str) :
  contains sub s = true <-> exists a b, s = a ++ sub ++ b.
Proof.
  split.
  - induction s as [|c s IH]; simpl; intros H.
    + rewrite orb_false_r in H. apply startswith_iff in H as [t Ht].
      now exists [], t.
    + apply orb_true_iff in H as [H|H].
      * apply startswith_iff in H as [t Ht]. now exists [], t.
      * destruct (IH H) as (a & b & ->). now exists (c :: a), b.
  - intros (a & b & ->). induction a as [|c a IH].
    + cbn [app]. apply contains_of_startswith, startswith_app.
    + simpl. rewrite IH. apply orb_true_r.
Qed.

Lemma endswith_app (suf s : str) : endswith suf (s ++ suf) = true.
Proof.
  unfold endswith. rewrite rev_app_distr. apply startswith_app.
Qed.

Lemma lstrip_by_app_stop (p : char -> bool) (a b : str) :
  lstrip_by p b = b -> lstrip_by p (a ++ b) = lstrip_by p a ++ b.
Proof.
  intros Hb. induction a as [|c a IH]; simpl; [exact Hb|].
  destruct (p c); [exact IH|reflexivity].
Qed.

Lemma lstrip_by_nil_iff (p : char -> bool) (s : str) :
  lstrip_by p s = [] <-> forallb p s = true.
Proof.
  induction s as [|c s IH]; simpl; [easy|].
  destruct (p c); simpl; [exact IH|easy].
Qed.

Lemma forallb_rev {A : Type} (p : A -> bool) (l : list A) :
  forallb p (rev l) = forallb p l.
Proof.
  induction l as [|x l IH]; simpl; [reflexivity|].
  rewrite forallb_app, IH. simpl. rewrite andb_true_r. apply andb_comm.
Qed.

Lemma rstrip_by_nil_iff (p : char -> bool) (s : str) :
  rstrip_by p s = [] <-> forallb p s = true.
Proof.
  unfold rstrip_by. rewrite <- forallb_rev, <- lstrip_by_nil_iff.
  split; intros H.
  - apply (f_equal (@rev char)) in H. now rewrite rev_involutive in H.
  - now rewrite H.
Qed.

Lemma forallb_lstrip_by (p : char -> bool) (s : str) :
  forallb p (lstrip_by p s) = forallb p s.
Proof.
  induction s as [|c s IH]; simpl; [reflexivity|].
  destruct (p c) eqn:E; simpl; [exact IH|now rewrite E].
Qed.

(** A line is blank exactly when all its characters are white space. *)
Lemma is_blank_forallb (l : str) : is_blank l = forallb isspace l.
Proof.
  unfold is_blank, strip.
  destruct (forallb isspace l) eqn:E.
  - apply str_eqb_eq, rstrip_by_nil_iff. now rewrite forallb_lstrip_by.
  - apply str_eqb_neq. intros H. apply rstrip_by_nil_iff in H.
    rewrite forallb_lstrip_by in H. congruence.
Qed.

(** A blank line contains no text that has a visible character. *)
Lemma blank_not_contains (sub l : str) :
  forallb isspace sub = false -> is_blank l = true -> contains sub l = false.
Proof.
  intros Hsub Hl. destruct (contains sub l) eqn:E; [|reflexivity].
  apply contains_iff in E as (a & b & ->).
  rewrite is_blank_forallb, !forallb_app, Hsub in Hl.
  now rewrite andb_false_r in Hl.
Qed.

(** ** Splitting and joining *)

Lemma split_not_nil (sep : char) (s : str) : split sep s <> [].
Proof.
  induction s as [|c s IH]; simpl; [easy|].
  destruct (N.eqb c sep); [easy|]. destruct (split sep s); easy.
Qed.

Lemma splitn_not_nil (sep : char) (s : str) (n : nat) : splitn sep n s <> [].
Proof.
  revert n; induction s as [|c s IH]; intros [|n]; simpl; try easy.
  destruct (N.eqb c sep); [easy|].
  specialize (IH (S n)). destruct (splitn sep (S n) s); easy.
Qed.

Lemma splitn_0 (sep : char) (s : str) : splitn sep 0 s = [s].
Proof. destruct s; reflexivity. Qed.

Lemma split_app_sep (sep : char) (x y : str) :
  ~ In sep x -> split sep (x ++ sep :: y) = x :: split sep y.
Proof.
  induction x as [|c x IH]; simpl; intros Hx.
  - now rewrite N.eqb_refl.
  - destruct (N.eqb c sep) eqn:E.
    + apply N.eqb_eq in E. tauto.
    + rewrite IH by tauto. reflexivity.
Qed.

Lemma splitn_app_sep (sep : char) (n : nat) (x y : str) :
  ~ In sep x -> splitn sep (S n) (x ++ sep :: y) = x :: splitn sep n y.
Proof.
  induction x as [|c x IH]; intros Hx.
  - simpl. now rewrite N.eqb_refl.
  - cbn [app splitn]. destruct (N.eqb c sep) eqn:E.
    + apply N.eqb_eq in E. simpl in Hx. tauto.
    + rewrite IH by (simpl in Hx; tauto). reflexivity.
Qed.

Lemma split_length (sep : char) (s : str) :
  length (split sep s) = S (count_char sep s).
Proof.
  unfold count_char. induction s as [|c s IH]; [reflexivity|].
  cbn [split count_occ]. destruct (N.eqb c sep) eqn:E.
  - apply N.eqb_eq in E. subst. destruct (N.eq_dec sep sep); [|easy].
    simpl. now rewrite IH.
  - apply N.eqb_neq in E. destruct (N.eq_dec c sep); [easy|].
    pose proof (split_not_nil sep s).
    destruct (split sep s); [easy|]. exact IH.
Qed.

Lemma splitn_length (sep : char) (s : str) (n : nat) :
  length (splitn sep n s) = S (Nat.min n (count_char sep s)).
Proof.
  unfold count_char. revert n; induction s as [|c s IH]; intros [|n]; try reflexivity.
  cbn [splitn count_occ]. destruct (N.eqb c sep) eqn:E.
  - apply N.eqb_eq in E. subst. destruct (N.eq_dec sep sep); [|easy].
    simpl. now rewrite IH.
  - apply N.eqb_neq in E. destruct (N.eq_dec c sep); [easy|].
    pose proof (splitn_not_nil sep s (S n)). specialize (IH (S n)).
    destruct (splitn sep (S n) s); [easy|]. exact IH.
Qed.

Lemma index_out_of_range {A : Type} (xs : list A) (i : nat) :
  length xs <= i -> index xs i = Raise IndexError.
Proof.
  intros H. unfold index. apply nth_error_None in H. now rewrite H.
Qed.

Lemma index_in_range {A : Type} (xs : list A) (i : nat) :
  i < length xs -> exists a, index xs i = Ok a.
Proof.
  intros H. unfold index. destruct (nth_error xs i) eqn:E.
  - now exists a.
  - apply nth_error_None in E. lia.
Qed.

(** ** Profile names and the start URL *)

(** C2: formatting an (account, role) pair whose account id has no ['-'] and
    parsing the name back gives the pair again, also when the role name
    contains ['-']. *)
Theorem parse_format_roundtrip (account_id role_name : str) :
  ~ In ch_dash account_id ->
  parse_profile_name (format_profile_name account_id role_name)
  = Ok (account_id, role_name).
Proof.
  intros Hacc. unfold parse_profile_name, format_profile_name.
  change (lit "sso-" ++ account_id ++ lit "-" ++ role_name)
    with (lit "sso" ++ ch_dash :: (account_id ++ ch_dash :: role_name)).
  assert (Hsso : ~ In ch_dash (lit "sso")) by (vm_compute; intuition discriminate).
  rewrite (split_app_sep _ _ _ Hsso), (split_app_sep _ _ _ Hacc).
  rewrite (splitn_app_sep _ 1 _ _ Hsso), (splitn_app_sep _ 0 _ _ Hacc), splitn_0.
  reflexivity.
Qed.

Lemma parse_format_roundtrip_witness :
  ~ In ch_dash (lit "111111111111") /\
  parse_profile_name (format_profile_name (lit "111111111111") (lit "Power-User-Access"))
  = Ok (lit "111111111111", lit "Power-User-Access").
Proof.
  assert (H : ~ In ch_dash (lit "111111111111"))
    by (vm_compute; intuition discriminate).
  split; [exact H | exact (parse_format_roundtrip _ (lit "Power-User-Access") H)].
Defined.

(** C5: the normalized start URL always ends in ["/#"], and normalizing a
    normalized URL changes nothing. *)
Theorem normalize_sso_start_url_idempotent (u : str) :
  endswith (lit "/#") (normalize_sso_start_url u) = true /\
  normalize_sso_start_url (normalize_sso_start_url u) = normalize_sso_start_url u.
Proof.
  assert (H : endswith (lit "/#") (normalize_sso_start_url u) = true).
  { unfold normalize_sso_start_url.
    destruct (endswith (lit "/#") u) eqn:E; simpl; [exact E|].
    apply endswith_app. }
  split; [exact H|].
  unfold normalize_sso_start_url at 1. now rewrite H.
Qed.

(** C6 (as the code has it): a profile name with fewer than two ['-'] makes
    the parse raise [IndexError], the error of the failed list lookup. *)
Theorem parse_profile_name_too_few_separators (profile_name : str) :
  count_char ch_dash profile_name < 2 ->
  parse_profile_name profile_name = Raise IndexError.
Proof.
  intros H. unfold parse_profile_name.
  destruct (Nat.eq_dec (count_char ch_dash profile_name) 0) as [H0|H0].
  - rewrite index_out_of_range; [reflexivity|].
    rewrite split_length. lia.
  - destruct (index_in_range (split ch_dash profile_name) 1) as [a ->].
    { rewrite split_length. lia. }
    simpl. rewrite index_out_of_range; [reflexivity|].
    rewrite splitn_length. lia.
Qed.

Lemma parse_profile_name_too_few_separators_witness :
  count_char ch_dash (lit "sso-111111111111") < 2 /\
  parse_profile_name (lit "sso-111111111111") = Raise IndexError.
Proof.
  assert (H : count_char ch_dash (lit "sso-111111111111") < 2)
    by (vm_compute; lia).
  split; [exact H | exact (parse_profile_name_too_few_separators _ H)].
Defined.

(** C6, counterexample: on a name without separators the error raised is not
    the [MalformedProfileNameError] of the specification. *)
Lemma parse_profile_name_not_malformed_error :
  parse_profile_name (lit "sso") = Raise IndexError /\
  parse_profile_name (lit "sso") <> Raise MalformedProfileNameError.
Proof.
  split; [reflexivity | vm_compute; discriminate].
Qed.

(** ** Insertion-ordered dictionaries *)

Section Assoc.
Context {V : Type}.
Implicit Types (k : str) (v : V) (d : list (str * V)).

Lemma assoc_get_set_same k v d : assoc_get k (assoc_set k v d) = Some v.
Proof.
  induction d as [|[k' v'] d IH]; simpl.
  - now rewrite str_eqb_refl.
  - destruct (str_eqb k k') eqn:E; simpl; now rewrite E.
Qed.

Lemma assoc_get_set_other k k' v d :
  str_eqb k k' = false -> assoc_get k (assoc_set k' v d) = assoc_get k d.
Proof.
  intros Hk. induction d as [|[k0 v0] d IH]; simpl.
  - now rewrite Hk.
  - destruct (str_eqb k' k0) eqn:E; simpl.
    + apply str_eqb_eq in E. subst k0. now rewrite Hk.
    + now rewrite IH.
Qed.

Lemma assoc_set_set k v w d : assoc_set k w (assoc_set k v d) = assoc_set k w d.
Proof.
  induction d as [|[k' v'] d IH]; simpl.
  - now rewrite str_eqb_refl.
  - destruct (str_eqb k k') eqn:E; simpl; rewrite E; [reflexivity|now rewrite IH].
Qed.

Lemma assoc_set_absent k v d :
  assoc_get k d = None -> assoc_set k v d = d ++ [(k, v)].
Proof.
  induction d as [|[k' v'] d IH]; simpl; [reflexivity|].
  destruct (str_eqb k k'); [discriminate|]. intros H. now rewrite IH.
Qed.

Lemma assoc_set_same k v d : assoc_get k d = Some v -> assoc_set k v d = d.
Proof.
  induction d as [|[k' v'] d IH]; simpl; [discriminate|].
  destruct (str_eqb k k'); intros H; [congruence|now rewrite IH].
Qed.

Lemma assoc_get_None_not_in k d : assoc_get k d = None -> ~ In k (map fst d).
Proof.
  induction d as [|[k' v'] d IH]; simpl; [tauto|].
  destruct (str_eqb k k') eqn:E; [discriminate|].
  apply str_eqb_neq in E. intros H [Hk|Hk]; [congruence|now apply IH].
Qed.

Lemma assoc_set_keys k v d :
  map fst (assoc_set k v d)
  = match assoc_get k d with
    | Some _ => map fst d
    | None => map fst d ++ [k]
    end.
Proof.
  induction d as [|[k' v'] d IH]; simpl; [reflexivity|].
  destruct (str_eqb k k'); simpl; [reflexivity|].
  rewrite IH. now destruct (assoc_get k d).
Qed.

Lemma assoc_set_NoDup k v d :
  NoDup (map fst d) -> NoDup (map fst (assoc_set k v d)).
Proof.
  intros H. rewrite assoc_set_keys. destruct (assoc_get k d) eqn:E; [exact H|].
  apply assoc_get_None_not_in in E.
  apply NoDup_rev in H. rewrite <- (rev_involutive (map fst d ++ [k])).
  apply NoDup_rev. rewrite rev_app_distr. simpl. constructor; [|exact H].
  now rewrite <- in_rev.
Qed.

(** Assigning key [k] touches no entry stored under another key, and keeps
    their order. *)
Lemma assoc_set_filter (keep : str * V -> bool) k v d :
  (forall w, keep (k, w) = false) ->
  filter keep (assoc_set k v d) = filter keep d.
Proof.
  intros Hk. induction d as [|[k' v'] d IH]; simpl.
  - now rewrite Hk.
  - destruct (str_eqb k k') eqn:E; simpl.
    + apply str_eqb_eq in E. subst k'. now rewrite !Hk.
    + now rewrite IH.
Qed.

End Assoc.

(** ** The config parser *)

Lemma before_set_raises (v : str) (e : exn) :
  before_set v = Raise e -> e = ValueError.
Proof.
  unfold before_set. destruct (contains _ _); congruence.
Qed.

Lemma cp_set_eq (D : section) (S : list (str * section)) (sec opt v : str) (d : section) :
  sec <> [] ->
  str_eqb sec default_section = false ->
  assoc_get sec S = Some d ->
  cp_set {| cp_defaults := D; cp_sections := S |} sec opt v
  = if value_ok v
    then Ok {| cp_defaults := D; cp_sections := assoc_set sec (assoc_set opt v d) S |}
    else Raise ValueError.
Proof.
  intros Hne Hsec Hget. unfold cp_set, value_ok. cbn [cp_defaults cp_sections].
  apply str_eqb_neq in Hne. rewrite Hne. cbn [orb].
  destruct v as [|c v]; cbn [bind].
  - now rewrite Hsec, Hget.
  - destruct (before_set (c :: v)) eqn:E; cbn [bind].
    + now rewrite Hsec, Hget.
    + now rewrite (before_set_raises _ _ E).
Qed.

Lemma fold_cp_set_raise (sec : str) (items : section) (e : exn) :
  fold_left (fun acc kv => cp' <- acc ;; cp_set cp' sec (fst kv) (snd kv))
    items (Raise e) = Raise e.
Proof.
  induction items as [|kv items IH]; simpl; [reflexivity|exact IH].
Qed.

Lemma fold_cp_set (D : section) (S : list (str * section)) (sec : str) :
  sec <> [] ->
  str_eqb sec default_section = false ->
  forall (items d : section),
    fold_left (fun acc kv => cp' <- acc ;; cp_set cp' sec (fst kv) (snd kv)) items
      (Ok {| cp_defaults := D; cp_sections := assoc_set sec d S |})
    = if forallb value_ok (map snd items)
      then Ok {| cp_defaults := D;
                 cp_sections :=
                   assoc_set sec
                     (fold_left (fun d kv => assoc_set (fst kv) (snd kv) d) items d) S |}
      else Raise ValueError.
Proof.
  intros Hne Hsec. induction items as [|[k v] items IH]; intros d; [reflexivity|].
  cbn [fold_left map forallb fst snd bind].
  rewrite (cp_set_eq _ _ _ _ _ d Hne Hsec (assoc_get_set_same _ _ _)).
  destruct (value_ok v); cbn [andb].
  - rewrite assoc_set_set. apply IH.
  - apply fold_cp_set_raise.
Qed.

(** [config[key] = items] either refuses one of the values or leaves the
    section [key] holding exactly the items, in place when it existed and at
    the end otherwise. *)
Lemma setitem_eq (cp : ConfigParser) (key : str) (items : section) :
  key <> [] ->
  str_eqb key default_section = false ->
  setitem cp key items
  = if forallb value_ok (map snd items)
    then Ok {| cp_defaults := cp_defaults cp;
               cp_sections := assoc_set key (dict_of items) (cp_sections cp) |}
    else Raise ValueError.
Proof.
  intros Hne Hkey. destruct cp as [D S]. unfold setitem, read_dict, dict_of.
  rewrite Hkey. cbn [cp_defaults cp_sections].
  destruct (assoc_get key S) eqn:E; cbn [cp_defaults cp_sections].
  - rewrite assoc_get_set_same.
    apply (fold_cp_set D S key Hne Hkey items []).
  - rewrite E. rewrite <- (assoc_set_absent _ _ _ E).
    apply (fold_cp_set D S key Hne Hkey items []).
Qed.

Lemma dict_of_profile_settings (cfg : AWSConfig) (url a r : str) (d : section) :
  profile_settings cfg url a r = Ok d -> dict_of d = d.
Proof.
  unfold profile_settings.
  destruct (sso_region cfg), (default_region cfg), (output_format cfg);
    cbn [bind]; intros H; inversion H. reflexivity.
Qed.

(** What the in-memory update computes: the profile name is split, the
    settings are read, and both sections end up holding the same new dict. *)
Lemma upsert_sections_eq (cfg : AWSConfig) (p : str) (cp : ConfigParser) :
  upsert_sections cfg p cp
  = (parsed <- parse_profile_name p ;;
     url <- sso_start_url cfg ;;
     d <- profile_settings cfg (normalize_sso_start_url url) (fst parsed) (snd parsed) ;;
     if forallb value_ok (map snd d)
     then Ok {| cp_defaults := cp_defaults cp;
                cp_sections :=
                  assoc_set (named_section p) d
                    (assoc_set (lit "default") d (cp_sections cp)) |}
     else Raise ValueError).
Proof.
  unfold upsert_sections.
  destruct (parse_profile_name p) as [[a r]|e]; cbn [bind fst snd]; [|reflexivity].
  destruct (sso_start_url cfg) as [url|e]; cbn [bind]; [|reflexivity].
  destruct (profile_settings cfg (normalize_sso_start_url url) a r) as [d|e] eqn:E;
    cbn [bind]; [|reflexivity].
  rewrite setitem_eq; [|discriminate|reflexivity].
  rewrite (dict_of_profile_settings _ _ _ _ _ E).
  destruct (forallb value_ok (map snd d)) eqn:F; cbn [bind]; [|reflexivity].
  rewrite setitem_eq; [|discriminate|reflexivity].
  rewrite (dict_of_profile_settings _ _ _ _ _ E), F. reflexivity.
Qed.

Lemma named_section_not_default (p : str) :
  str_eqb (lit "default") (named_section p) = false.
Proof. reflexivity. Qed.

(** A successful update, spelled out. *)
Lemma update_config_file_ok (cfg : AWSConfig) (p : str) (st st' : config_store) :
  _update_config_file cfg p st = Ok st' ->
  exists a r url d,
    parse_profile_name p = Ok (a, r) /\
    sso_start_url cfg = Ok url /\
    profile_settings cfg (normalize_sso_start_url url) a r = Ok d /\
    forallb value_ok (map snd d) = true /\
    config_writable st = true /\
    st' = {| config_file :=
               Some {| cp_defaults := cp_defaults (read_config st);
                       cp_sections :=
                         assoc_set (named_section p) d
                           (assoc_set (lit "default") d
                              (cp_sections (read_config st))) |};
             config_writable := true |}.
Proof.
  unfold _update_config_file. rewrite upsert_sections_eq.
  destruct (parse_profile_name p) as [[a r]|e]; cbn [bind fst snd]; [|discriminate].
  destruct (sso_start_url cfg) as [url|e]; cbn [bind]; [|discriminate].
  destruct (profile_settings cfg (normalize_sso_start_url url) a r) as [d|e] eqn:E;
    cbn [bind]; [|discriminate].
  destruct (forallb value_ok (map snd d)) eqn:F; cbn [bind]; [|discriminate].
  destruct (config_writable st) eqn:W; [|discriminate].
  intros H. inversion H. now exists a, r, url, d.
Qed.

(** C4: an update that succeeds leaves both the [default] section and the
    [profile <name>] section holding exactly the new settings (nothing of an
    older section of that name survives) and creates no duplicate section;
    and for every config file and profile name, updating twice leaves the
    file as updating once does. *)
Theorem update_config_file_overwrites
  (cfg : AWSConfig) (p : str) (st : config_store) :
  config_after cfg p (config_after cfg p st) = config_after cfg p st /\
  forall st',
    _update_config_file cfg p st = Ok st' ->
    exists a r url d,
      parse_profile_name p = Ok (a, r) /\
      sso_start_url cfg = Ok url /\
      profile_settings cfg (normalize_sso_start_url url) a r = Ok d /\
      assoc_get (lit "default") (cp_sections (read_config st')) = Some d /\
      assoc_get (named_section p) (cp_sections (read_config st')) = Some d /\
      (NoDup (map fst (cp_sections (read_config st))) ->
       NoDup (map fst (cp_sections (read_config st')))) /\
      _update_config_file cfg p st' = Ok st'.
Proof.
  assert (Hok : forall st',
             _update_config_file cfg p st = Ok st' ->
             exists a r url d,
               parse_profile_name p = Ok (a, r) /\
               sso_start_url cfg = Ok url /\
               profile_settings cfg (normalize_sso_start_url url) a r = Ok d /\
               assoc_get (lit "default") (cp_sections (read_config st')) = Some d /\
               assoc_get (named_section p) (cp_sections (read_config st')) = Some d /\
               (NoDup (map fst (cp_sections (read_config st))) ->
                NoDup (map fst (cp_sections (read_config st')))) /\
               _update_config_file cfg p st' = Ok st').
  { intros st' Hup.
    destruct (update_config_file_ok _ _ _ _ Hup)
      as (a & r & url & d & Hp & Hu & Hd & Hv & Hw & ->).
    exists a, r, url, d. cbn [read_config config_file cp_sections].
    assert (Hdef : assoc_get (lit "default")
                     (assoc_set (named_section p) d
                        (assoc_set (lit "default") d (cp_sections (read_config st))))
                   = Some d).
    { rewrite assoc_get_set_other by apply named_section_not_default.
      apply assoc_get_set_same. }
    repeat split; try assumption.
    - apply assoc_get_set_same.
    - intros Hnd. now apply assoc_set_NoDup, assoc_set_NoDup.
    - unfold _update_config_file. rewrite upsert_sections_eq, Hp, Hu.
      cbn [bind fst snd read_config config_file cp_sections cp_defaults config_writable].
      rewrite Hd. cbn [bind]. rewrite Hv.
      rewrite (assoc_set_same (lit "default") d _ Hdef).
      rewrite (assoc_set_same (named_section p) d _ (assoc_get_set_same _ _ _)).
      reflexivity. }
  split; [|exact Hok].
  unfold config_after at 2 3.
  destruct (_update_config_file cfg p st) as [st'|e] eqn:E.
  - destruct (Hok st' eq_refl) as (a & r & url & d & _ & _ & _ & _ & _ & _ & Hagain).
    unfold config_after. now rewrite Hagain.
  - unfold config_after. now rewrite E.
Qed.

(** C8: an update changes nothing outside the [default] and
    [profile <name>] sections: the [DEFAULT] options, every other section
    with all its options, and the order of those sections are after the call
    what they were before it. *)
Theorem update_config_file_frame (cfg : AWSConfig) (p : str) (st : config_store) :
  let st' := config_after cfg p st in
  cp_defaults (read_config st') = cp_defaults (read_config st) /\
  (forall s,
      s <> lit "default" -> s <> named_section p ->
      assoc_get s (cp_sections (read_config st'))
      = assoc_get s (cp_sections (read_config st))) /\
  filter (other_section p) (cp_sections (read_config st'))
  = filter (other_section p) (cp_sections (read_config st)).
Proof.
  cbv zeta. unfold config_after.
  destruct (_update_config_file cfg p st) as [st'|e] eqn:Hup; [|now repeat split].
  destruct (update_config_file_ok _ _ _ _ Hup)
    as (a & r & url & d & Hp & Hu & Hd & Hv & Hw & ->).
  cbn [read_config config_file cp_sections cp_defaults].
  split; [reflexivity|]. split.
  - intros s Hs1 Hs2.
    rewrite !assoc_get_set_other by now apply str_eqb_neq.
    reflexivity.
  - rewrite !assoc_set_filter; [reflexivity| |].
    + intros w. unfold other_section. cbn [fst]. now rewrite str_eqb_refl.
    + intros w. unfold other_section. cbn [fst].
      now rewrite str_eqb_refl, andb_false_r.
Qed.

Lemma sample_update_ok :
  exists st', _update_config_file sample_config sample_profile_name sample_store = Ok st'.
Proof. eexists. vm_compute. reflexivity. Qed.

Lemma sample_store_NoDup : NoDup (map fst (cp_sections (read_config sample_store))).
Proof.
  repeat (constructor; [vm_compute; intuition discriminate|]). constructor.
Qed.

Lemma update_config_file_overwrites_witness :
  exists st',
    _update_config_file sample_config sample_profile_name sample_store = Ok st' /\
    NoDup (map fst (cp_sections (read_config sample_store))) /\
    config_after sample_config sample_profile_name
      (config_after sample_config sample_profile_name sample_store)
    = config_after sample_config sample_profile_name sample_store /\
    (exists a r url d,
        parse_profile_name sample_profile_name = Ok (a, r) /\
        sso_start_url sample_config = Ok url /\
        profile_settings sample_config (normalize_sso_start_url url) a r = Ok d /\
        assoc_get (lit "default") (cp_sections (read_config st')) = Some d /\
        assoc_get (named_section sample_profile_name) (cp_sections (read_config st'))
        = Some d /\
        (NoDup (map fst (cp_sections (read_config sample_store))) ->
         NoDup (map fst (cp_sections (read_config st')))) /\
        _update_config_file sample_config sample_profile_name st' = Ok st').
Proof.
  destruct sample_update_ok as [st' H]. exists st'.
  refine (conj H (conj sample_store_NoDup _)).
  refine (match update_config_file_overwrites
                  sample_config sample_profile_name sample_store with
          | conj A B => conj A (B st' H)
          end).
Defined.

Lemma update_config_file_frame_witness :
  lit "profile legacy" <> lit "default" /\
  lit "profile legacy" <> named_section sample_profile_name /\
  assoc_get (lit "profile legacy")
    (cp_sections (read_config
       (config_after sample_config sample_profile_name sample_store)))
  = assoc_get (lit "profile legacy") (cp_sections (read_config sample_store)).
Proof.
  assert (H1 : lit "profile legacy" <> lit "default") by discriminate.
  assert (H2 : lit "profile legacy" <> named_section sample_profile_name)
    by (apply str_eqb_neq; reflexivity).
  refine (conj H1 (conj H2 _)).
  exact (proj1 (proj2 (update_config_file_frame
                         sample_config sample_profile_name sample_store))
           _ H1 H2).
Defined.

(** ** The profile loop *)



(** In the sample run the update of the second role raises. *)
Lemma sample_second_role_raises :
  forall st,
    update_profile sample_config (lit "222222222222") (lit "Read%Only")
      (format_profile_name (lit "222222222222") (lit "Read%Only")) st
    = Raise ValueError.
Proof.
  intros st. unfold update_profile, _update_config_file.
  rewrite upsert_sections_eq. reflexivity.
Qed.


(** ** Counting lines *)

Lemma count_lines_app (p : str -> bool) (a b : list str) :
  count_lines p (a ++ b) = count_lines p a + count_lines p b.
Proof. unfold count_lines. now rewrite filter_app, length_app. Qed.

Lemma count_lines_one (p : str -> bool) (x : str) :
  count_lines p [x] = if p x then 1 else 0.
Proof. unfold count_lines. simpl. now destruct (p x). Qed.

Lemma count_lines_zero (p : str -> bool) (ls : list str) :
  (forall l, In l ls -> p l = false) -> count_lines p ls = 0.
Proof.
  unfold count_lines. induction ls as [|x ls IH]; intros H; simpl; [reflexivity|].
  rewrite (H x) by now left. apply IH. intros l Hl. apply H. now right.
Qed.

Lemma count_lines_with_spacing (p : str -> bool) (ls : list str) :
  p [] = false -> count_lines p (with_spacing ls) = count_lines p ls.
Proof.
  intros Hp. unfold with_spacing. destruct (needs_blank ls); [|reflexivity].
  rewrite count_lines_app, count_lines_one, Hp. lia.
Qed.

Lemma in_with_spacing (l : str) (ls : list str) :
  In l (with_spacing ls) -> l = [] \/ In l ls.
Proof.
  unfold with_spacing. destruct (needs_blank ls); [|tauto].
  rewrite in_app_iff. simpl. intuition.
Qed.

Lemma join_in (sep l : str) (ls : list str) :
  In l ls -> exists a b, join sep ls = a ++ l ++ b.
Proof.
  induction ls as [|x ls IH]; [easy|]. intros [->|H].
  - destruct ls as [|y ls].
    + exists [], []. simpl. now rewrite app_nil_r.
    + exists [], (sep ++ join sep (y :: ls)). reflexivity.
  - destruct (IH H) as (a & b & E). destruct ls as [|y ls]; [easy|].
    exists (x ++ sep ++ a), b. cbn [join] in *. rewrite E.
    now rewrite <- !app_assoc.
Qed.

(** Text found in one line is found in the joined content. *)
Lemma contains_join (sub sep l : str) (ls : list str) :
  In l ls -> contains sub l = true -> contains sub (join sep ls) = true.
Proof.
  intros Hin Hc. apply contains_iff in Hc as (a & b & ->).
  destruct (join_in sep _ _ Hin) as (a' & b' & ->).
  apply contains_iff. exists (a' ++ a), (b ++ b'). now rewrite <- !app_assoc.
Qed.

(** ** The POSIX shell adapter *)

Lemma blank_not_export (l : str) : is_blank l = true -> Bash.is_export l = false.
Proof.
  unfold is_blank, Bash.is_export. intros H. apply str_eqb_eq in H. now rewrite H.
Qed.

Lemma export_is_export : Bash.is_export (Bash.aws_export default_profile) = true.
Proof. reflexivity. Qed.

Lemma export_no_alias : Bash.has_alias (Bash.aws_export default_profile) = false.
Proof. vm_compute. reflexivity. Qed.

Lemma alias_not_export : Bash.is_export Bash.clear_aws_alias = false.
Proof. reflexivity. Qed.

Lemma alias_has_alias : Bash.has_alias Bash.clear_aws_alias = true.
Proof. vm_compute. reflexivity. Qed.

Lemma bash_pass_snoc (dp : str) (lines : list str) (l : str) :
  Bash.pass dp (lines ++ [l]) = Bash.step dp (Bash.pass dp lines) l.
Proof. unfold Bash.pass. now rewrite fold_left_app. Qed.

(** What one iteration can do to the output: replace the line by the export
    line, keep the line, or drop it. *)
Lemma bash_step_cases (dp : str) (st : Bash.state) (l : str) :
  let st' := Bash.step dp st l in
  (Bash.new_lines st' = Bash.new_lines st ++ [Bash.aws_export dp] /\
   Bash.is_export l = true /\ Bash.aws_profile_added st = false /\
   Bash.aws_profile_added st' = true)
  \/
  (Bash.new_lines st' = Bash.new_lines st ++ [l] /\
   Bash.is_export l = false /\
   Bash.aws_profile_added st' = Bash.aws_profile_added st)
  \/
  (Bash.new_lines st' = Bash.new_lines st /\
   Bash.aws_profile_added st' = Bash.aws_profile_added st /\
   (is_blank l = true \/ Bash.aws_profile_added st = true)).
Proof.
  unfold Bash.step. destruct (is_blank l) eqn:Hb.
  - destruct (Bash.blank_line_count st + 1 <=? 1);
      cbn [Bash.new_lines Bash.aws_profile_added].
    + right; left. now rewrite blank_not_export.
    + right; right. auto.
  - destruct (Bash.is_export l) eqn:He.
    + destruct (Bash.aws_profile_added st) eqn:Ha;
        cbn [negb Bash.new_lines Bash.aws_profile_added].
      * right; right. auto.
      * left. auto.
    + cbn [Bash.new_lines Bash.aws_profile_added]. right; left. auto.
Qed.

(** After the loop the output holds the export line once if a line matched,
    and no matching line otherwise. *)
Lemma bash_pass_count_export (lines : list str) :
  let st := Bash.pass default_profile lines in
  count_lines Bash.is_export (Bash.new_lines st)
  = if Bash.aws_profile_added st then 1 else 0.
Proof.
  induction lines as [|l lines IH] using rev_ind; [reflexivity|].
  cbn zeta in *. rewrite bash_pass_snoc.
  destruct (bash_step_cases default_profile (Bash.pass default_profile lines) l)
    as [(Hn & He & Ha & Ha') | [(Hn & He & Ha) | (Hn & Ha & _)]];
    rewrite Hn, ?count_lines_app, ?count_lines_one, ?export_is_export, ?He, IH.
  - rewrite Ha, Ha'. reflexivity.
  - rewrite Ha. lia.
  - now rewrite Ha.
Qed.

(** The loop adds no line containing the alias. *)
Lemma bash_pass_count_alias (lines : list str) :
  count_lines Bash.has_alias (Bash.new_lines (Bash.pass default_profile lines))
  <= count_lines Bash.has_alias lines.
Proof.
  induction lines as [|l lines IH] using rev_ind; [apply Nat.le_refl|].
  rewrite bash_pass_snoc.
  destruct (bash_step_cases default_profile (Bash.pass default_profile lines) l)
    as [(Hn & _) | [(Hn & _) | (Hn & _)]];
    rewrite Hn, ?count_lines_app, ?count_lines_one, ?export_no_alias;
    destruct (Bash.has_alias l); lia.
Qed.

Lemma bash_add_export_count_export (lines : list str) :
  count_lines Bash.is_export
    (Bash.add_export default_profile (Bash.pass default_profile lines)) = 1.
Proof.
  unfold Bash.add_export. pose proof (bash_pass_count_export lines) as H.
  cbn zeta in H. destruct (Bash.aws_profile_added _); cbn [negb]; [exact H|].
  rewrite count_lines_app, count_lines_with_spacing by reflexivity.
  rewrite H, count_lines_one, export_is_export. reflexivity.
Qed.

Lemma bash_add_export_count_alias (lines : list str) :
  count_lines Bash.has_alias
    (Bash.add_export default_profile (Bash.pass default_profile lines))
  <= count_lines Bash.has_alias lines.
Proof.
  unfold Bash.add_export. pose proof (bash_pass_count_alias lines) as H.
  destruct (Bash.aws_profile_added _); cbn [negb]; [exact H|].
  rewrite count_lines_app, count_lines_with_spacing by reflexivity.
  rewrite count_lines_one, export_no_alias. lia.
Qed.

Lemma bash_merge_count_export (lines : list str) :
  count_lines Bash.is_export (Bash.merge default_profile lines) = 1.
Proof.
  unfold Bash.merge, Bash.add_alias.
  destruct (contains _ _); cbn [negb];
    rewrite ?count_lines_app, ?count_lines_one, ?alias_not_export,
      bash_add_export_count_export; reflexivity.
Qed.

Lemma bash_merge_count_alias (lines : list str) :
  count_lines Bash.has_alias (Bash.merge default_profile lines)
  <= Nat.max 1 (count_lines Bash.has_alias lines).
Proof.
  unfold Bash.merge, Bash.add_alias.
  pose proof (bash_add_export_count_alias lines) as H.
  destruct (contains _ _) eqn:E; cbn [negb]; [lia|].
  rewrite count_lines_app, count_lines_one, alias_has_alias.
  rewrite count_lines_zero; [lia|].
  intros l Hl. destruct (Bash.has_alias l) eqn:Hal; [|reflexivity].
  unfold Bash.has_alias in Hal.
  now rewrite (contains_join _ [ch_newline] _ _ Hl Hal) in E.
Qed.

(** ** The PowerShell adapter *)

Lemma blank_not_env (l : str) : is_blank l = true -> PowerShell.is_env l = false.
Proof. apply blank_not_contains. reflexivity. Qed.

Lemma blank_not_function (l : str) :
  is_blank l = true -> PowerShell.is_function l = false.
Proof. apply blank_not_contains. reflexivity. Qed.

Lemma env_is_env (dp : str) : PowerShell.is_env (PowerShell.aws_env dp) = true.
Proof.
  unfold PowerShell.is_env, PowerShell.aws_env.
  change (lit "$env:AWS_DEFAULT_PROFILE = '" ++ dp ++ lit "'")
    with (lit "$env:AWS_DEFAULT_PROFILE" ++ (lit " = '" ++ dp ++ lit "'")).
  apply contains_of_startswith, startswith_app.
Qed.

Lemma env_not_function :
  PowerShell.is_function (PowerShell.aws_env default_profile) = false.
Proof. vm_compute. reflexivity. Qed.

Lemma not_env_not_canonical (dp l : str) :
  PowerShell.is_env l = false -> str_eqb (PowerShell.aws_env dp) l = false.
Proof.
  intros H. apply str_eqb_neq. intros <-. now rewrite env_is_env in H.
Qed.

Lemma ps_pass_snoc (dp : str) (lines : list str) (l : str) :
  PowerShell.pass dp (lines ++ [l]) = PowerShell.step dp (PowerShell.pass dp lines) l.
Proof. unfold PowerShell.pass. now rewrite fold_left_app. Qed.

(** What one iteration can do to the output and the two flags. *)
Lemma ps_step_cases (dp : str) (st : PowerShell.state) (l : str) :
  let st' := PowerShell.step dp st l in
  (PowerShell.new_lines st' = PowerShell.new_lines st ++ [PowerShell.aws_env dp] /\
   PowerShell.is_env l = true /\ PowerShell.aws_profile_added st = false /\
   PowerShell.aws_profile_added st' = true /\
   PowerShell.clear_aws_added st' = PowerShell.clear_aws_added st)
  \/
  (PowerShell.new_lines st' = PowerShell.new_lines st ++ [l] /\
   PowerShell.is_env l = false /\
   PowerShell.aws_profile_added st' = PowerShell.aws_profile_added st /\
   (PowerShell.is_function l = false /\
    PowerShell.clear_aws_added st' = PowerShell.clear_aws_added st
    \/ PowerShell.is_function l = true /\ PowerShell.clear_aws_added st' = true))
  \/
  (PowerShell.new_lines st' = PowerShell.new_lines st /\
   PowerShell.aws_profile_added st' = PowerShell.aws_profile_added st /\
   PowerShell.clear_aws_added st' = PowerShell.clear_aws_added st).
Proof.
  unfold PowerShell.step. destruct (is_blank l) eqn:Hb.
  - destruct (PowerShell.blank_line_count st + 1 <=? 1);
      cbn [PowerShell.new_lines PowerShell.aws_profile_added PowerShell.clear_aws_added].
    + right; left. rewrite blank_not_env, blank_not_function by assumption. intuition.
    + right; right. auto.
  - destruct (PowerShell.is_env l) eqn:He.
    + destruct (PowerShell.aws_profile_added st) eqn:Ha;
        cbn [negb PowerShell.new_lines PowerShell.aws_profile_added
               PowerShell.clear_aws_added].
      * right; right. auto.
      * left. auto.
    + destruct (PowerShell.is_function l) eqn:Hf;
        cbn [PowerShell.new_lines PowerShell.aws_profile_added
               PowerShell.clear_aws_added];
        right; left; intuition.
Qed.

Lemma ps_pass_count_env (dp : str) (lines : list str) :
  let st := PowerShell.pass dp lines in
  count_lines PowerShell.is_env (PowerShell.new_lines st)
  = if PowerShell.aws_profile_added st then 1 else 0.
Proof.
  induction lines as [|l lines IH] using rev_ind; [reflexivity|].
  cbn zeta in *. rewrite ps_pass_snoc.
  destruct (ps_step_cases dp (PowerShell.pass dp lines) l)
    as [(Hn & He & Ha & Ha' & _) | [(Hn & He & Ha & _) | (Hn & Ha & _)]];
    rewrite Hn, ?count_lines_app, ?count_lines_one, ?env_is_env, ?He, IH.
  - rewrite Ha, Ha'. reflexivity.
  - rewrite Ha. lia.
  - now rewrite Ha.
Qed.

Lemma ps_pass_count_canonical (dp : str) (lines : list str) :
  let st := PowerShell.pass dp lines in
  count_lines (str_eqb (PowerShell.aws_env dp)) (PowerShell.new_lines st)
  = if PowerShell.aws_profile_added st then 1 else 0.
Proof.
  induction lines as [|l lines IH] using rev_ind; [reflexivity|].
  cbn zeta in *. rewrite ps_pass_snoc.
  destruct (ps_step_cases dp (PowerShell.pass dp lines) l)
    as [(Hn & He & Ha & Ha' & _) | [(Hn & He & Ha & _) | (Hn & Ha & _)]];
    rewrite Hn, ?count_lines_app, ?count_lines_one, ?str_eqb_refl,
      ?(not_env_not_canonical dp l He), IH.
  - rewrite Ha, Ha'. reflexivity.
  - rewrite Ha. lia.
  - now rewrite Ha.
Qed.

Lemma ps_pass_count_function (lines : list str) :
  let st := PowerShell.pass default_profile lines in
  count_lines PowerShell.is_function (PowerShell.new_lines st)
  <= count_lines PowerShell.is_function lines /\
  (PowerShell.clear_aws_added st = false ->
   count_lines PowerShell.is_function (PowerShell.new_lines st) = 0).
Proof.
  induction lines as [|l lines IH] using rev_ind; [split; reflexivity|].
  cbn zeta in *. destruct IH as [IH1 IH2]. rewrite ps_pass_snoc.
  destruct (ps_step_cases default_profile (PowerShell.pass default_profile lines) l)
    as [(Hn & _ & _ & _ & Hc)
       | [(Hn & _ & _ & [(Hf & Hc) | (Hf & Hc)]) | (Hn & _ & Hc)]];
    rewrite Hn, Hc, ?count_lines_app, ?count_lines_one, ?env_not_function, ?Hf.
  - split; [lia|]. intros H. rewrite IH2 by assumption. reflexivity.
  - split; [lia|]. intros H. rewrite IH2 by assumption. reflexivity.
  - split; [lia|discriminate].
  - split; [destruct (PowerShell.is_function l); lia|exact IH2].
Qed.

Lemma ps_add_env_count_env (dp : str) (lines : list str) :
  count_lines PowerShell.is_env
    (PowerShell.add_env dp (PowerShell.pass dp lines)) = 1.
Proof.
  unfold PowerShell.add_env. pose proof (ps_pass_count_env dp lines) as H.
  cbn zeta in H. destruct (PowerShell.aws_profile_added _); cbn [negb]; [exact H|].
  rewrite count_lines_app, count_lines_with_spacing by reflexivity.
  rewrite H, count_lines_one, env_is_env. reflexivity.
Qed.

Lemma ps_add_env_count_canonical (dp : str) (lines : list str) :
  count_lines (str_eqb (PowerShell.aws_env dp))
    (PowerShell.add_env dp (PowerShell.pass dp lines)) = 1.
Proof.
  unfold PowerShell.add_env. pose proof (ps_pass_count_canonical dp lines) as H.
  cbn zeta in H. destruct (PowerShell.aws_profile_added _); cbn [negb]; [exact H|].
  rewrite count_lines_app, count_lines_with_spacing by reflexivity.
  rewrite H, count_lines_one, str_eqb_refl. reflexivity.
Qed.

Lemma ps_add_env_count_function (lines : list str) :
  let st := PowerShell.pass default_profile lines in
  count_lines PowerShell.is_function (PowerShell.add_env default_profile st)
  <= count_lines PowerShell.is_function lines /\
  (PowerShell.clear_aws_added st = false ->
   count_lines PowerShell.is_function (PowerShell.add_env default_profile st) = 0).
Proof.
  cbn zeta. unfold PowerShell.add_env.
  destruct (ps_pass_count_function lines) as [H1 H2]. cbn zeta in H1, H2.
  destruct (PowerShell.aws_profile_added _); cbn [negb]; [now split|].
  rewrite count_lines_app, count_lines_with_spacing by reflexivity.
  rewrite count_lines_one, env_not_function.
  split; [lia|]. intros H. rewrite H2 by assumption. reflexivity.
Qed.

Lemma function_block_counts :
  count_lines PowerShell.is_function (split ch_newline PowerShell.clear_aws_function) = 1 /\
  count_lines (str_eqb (PowerShell.aws_env default_profile))
    (split ch_newline PowerShell.clear_aws_function) = 0.
Proof. split; vm_compute; reflexivity. Qed.

Lemma ps_merge_count_canonical (lines : list str) :
  count_lines (str_eqb (PowerShell.aws_env default_profile))
    (PowerShell.merge default_profile lines) = 1.
Proof.
  unfold PowerShell.merge, PowerShell.add_function.
  pose proof (ps_add_env_count_canonical default_profile lines) as H.
  destruct (PowerShell.clear_aws_added _); cbn [negb]; [exact H|].
  rewrite count_lines_app, count_lines_with_spacing by reflexivity.
  rewrite H, (proj2 function_block_counts). reflexivity.
Qed.

Lemma ps_merge_count_function (lines : list str) :
  count_lines PowerShell.is_function (PowerShell.merge default_profile lines)
  <= Nat.max 1 (count_lines PowerShell.is_function lines).
Proof.
  unfold PowerShell.merge, PowerShell.add_function.
  destruct (ps_add_env_count_function lines) as [H1 H2]. cbn zeta in H1, H2.
  destruct (PowerShell.clear_aws_added _); cbn [negb]; [lia|].
  rewrite count_lines_app, count_lines_with_spacing by reflexivity.
  rewrite H2, (proj1 function_block_counts) by reflexivity. lia.
Qed.

(** C3 (as the code has it): after one pass the POSIX output has exactly one
    line matching the export predicate; the PowerShell output has exactly one
    line matching the assignment predicate before the helper block is
    appended, and exactly one line equal to the canonical assignment at the
    end.  The helper alias or function is added when absent and never
    removed: the output has at most one of them when the input had at most
    one, and never more than the input had otherwise. *)
Theorem merge_directive_occurrences (lines : list str) :
  count_lines Bash.is_export (Bash.merge default_profile lines) = 1 /\
  count_lines Bash.has_alias (Bash.merge default_profile lines)
  <= Nat.max 1 (count_lines Bash.has_alias lines) /\
  count_lines PowerShell.is_env
    (PowerShell.add_env default_profile (PowerShell.pass default_profile lines)) = 1 /\
  count_lines (str_eqb (PowerShell.aws_env default_profile))
    (PowerShell.merge default_profile lines) = 1 /\
  count_lines PowerShell.is_function (PowerShell.merge default_profile lines)
  <= Nat.max 1 (count_lines PowerShell.is_function lines).
Proof.
  repeat split.
  - apply bash_merge_count_export.
  - apply bash_merge_count_alias.
  - apply ps_add_env_count_env.
  - apply ps_merge_count_canonical.
  - apply ps_merge_count_function.
Qed.

(** C3, counterexample: a [.bashrc] holding the alias twice still holds it
    twice after the pass, and a PowerShell profile holding two function
    headers keeps both. *)
Lemma helper_duplicates_survive :
  count_lines Bash.has_alias
    (Bash.merge default_profile [Bash.clear_aws_alias; Bash.clear_aws_alias]) = 2 /\
  count_lines PowerShell.is_function
    (PowerShell.merge default_profile
       [lit "function Clear-AWS {"; lit "}"; lit "function Clear-AWS {"; lit "}"]) = 2.
Proof. split; vm_compute; reflexivity. Qed.

(** ** Directives that no line matched *)

Lemma bash_fold_no_export (dp : str) (lines : list str) :
  forall st,
    (forall l, In l lines -> Bash.is_export l = false) ->
    Bash.new_lines (fold_left (Bash.step dp) lines st)
    = Bash.new_lines st ++ collapse_blanks (1 <=? Bash.blank_line_count st) lines
    /\ Bash.aws_profile_added (fold_left (Bash.step dp) lines st)
       = Bash.aws_profile_added st.
Proof.
  induction lines as [|l lines IH]; intros st H; cbn [fold_left collapse_blanks].
  - now rewrite app_nil_r.
  - destruct (IH (Bash.step dp st l)) as [IH1 IH2].
    { intros x Hx. apply H. now right. }
    rewrite IH1, IH2. unfold Bash.step.
    rewrite (H l) by now left.
    destruct (is_blank l);
      cbn [Bash.new_lines Bash.aws_profile_added Bash.blank_line_count].
    + rewrite Nat.add_1_r. destruct (Bash.blank_line_count st) as [|n]; cbn.
      * now rewrite <- app_assoc.
      * now split.
    + now rewrite <- app_assoc.
Qed.

Lemma ps_fold_no_env (dp : str) (lines : list str) :
  forall st,
    (forall l, In l lines -> PowerShell.is_env l = false) ->
    PowerShell.new_lines (fold_left (PowerShell.step dp) lines st)
    = PowerShell.new_lines st
      ++ collapse_blanks (1 <=? PowerShell.blank_line_count st) lines
    /\ PowerShell.aws_profile_added (fold_left (PowerShell.step dp) lines st)
       = PowerShell.aws_profile_added st.
Proof.
  induction lines as [|l lines IH]; intros st H; cbn [fold_left collapse_blanks].
  - now rewrite app_nil_r.
  - destruct (IH (PowerShell.step dp st l)) as [IH1 IH2].
    { intros x Hx. apply H. now right. }
    rewrite IH1, IH2. unfold PowerShell.step.
    rewrite (H l) by now left.
    destruct (is_blank l);
      cbn [PowerShell.new_lines PowerShell.aws_profile_added
             PowerShell.blank_line_count].
    + rewrite Nat.add_1_r. destruct (PowerShell.blank_line_count st) as [|n]; cbn.
      * now rewrite <- app_assoc.
      * now split.
    + destruct (PowerShell.is_function l);
        cbn [PowerShell.new_lines PowerShell.aws_profile_added
               PowerShell.blank_line_count];
        now rewrite <- app_assoc.
Qed.

Lemma ps_fold_no_function (dp : str) (lines : list str) :
  forall st,
    (forall l, In l lines ->
               PowerShell.is_env l = false -> PowerShell.is_function l = false) ->
    PowerShell.clear_aws_added (fold_left (PowerShell.step dp) lines st)
    = PowerShell.clear_aws_added st.
Proof.
  induction lines as [|l lines IH]; intros st H; cbn [fold_left]; [reflexivity|].
  rewrite IH by (intros x Hx; apply H; now right).
  unfold PowerShell.step.
  destruct (is_blank l); [reflexivity|].
  destruct (PowerShell.is_env l) eqn:He.
  - now destruct (negb (PowerShell.aws_profile_added st)).
  - now rewrite (H l (or_introl eq_refl) He).
Qed.

Lemma startswith_app_sep (sub x : str) (c : char) (y : str) :
  startswith sub (x ++ c :: y) = true -> startswith sub x = true \/ In c sub.
Proof.
  revert x. induction sub as [|a sub IH]; intros x H; [now left|].
  destruct x as [|b x]; cbn [app startswith] in *.
  - apply andb_true_iff in H as [H _]. apply N.eqb_eq in H. right. now left.
  - apply andb_true_iff in H as [Hab H]. destruct (IH _ H) as [H'|H'].
    + left. now rewrite Hab, H'.
    + right. now right.
Qed.

Lemma contains_app_sep (sub x : str) (c : char) (y : str) :
  ~ In c sub ->
  contains sub (x ++ c :: y) = true ->
  contains sub x = true \/ contains sub y = true.
Proof.
  intros Hc. induction x as [|b x IH]; cbn [app]; intros H.
  - cbn [contains] in H. apply orb_true_iff in H as [H|H]; [|now right].
    destruct (startswith_app_sep sub [] c y H) as [H'|H']; [|tauto].
    left. now apply contains_of_startswith.
  - cbn [contains] in H. apply orb_true_iff in H as [H|H].
    + destruct (startswith_app_sep sub (b :: x) c y H) as [H'|H']; [|tauto].
      left. now apply contains_of_startswith.
    + destruct (IH H) as [H'|H']; [|now right].
      left. cbn [contains]. rewrite H'. apply orb_true_r.
Qed.

(** Text without the separator that is found in the joined content is found
    in one of the lines. *)
Lemma contains_join_inv (sub : str) (c : char) (ls : list str) :
  ~ In c sub -> sub <> [] ->
  contains sub (join [c] ls) = true ->
  exists l, In l ls /\ contains sub l = true.
Proof.
  intros Hc Hsub. induction ls as [|x ls IH]; intros H.
  - destruct sub; [easy|discriminate].
  - destruct ls as [|y ls].
    + exists x. split; [now left|exact H].
    + cbn [join app] in H.
      destruct (contains_app_sep sub x c _ Hc H) as [H'|H'].
      * exists x. split; [now left|exact H'].
      * destruct (IH H') as (l & Hl & Hl'). exists l. split; [now right|exact Hl'].
Qed.

Lemma count_lines_zero_inv (p : str -> bool) (ls : list str) :
  count_lines p ls = 0 -> forall l, In l ls -> p l = false.
Proof.
  unfold count_lines. induction ls as [|x ls IH]; simpl; intros H l; [easy|].
  destruct (p x) eqn:E; [discriminate|]. intros [<-|Hl]; [exact E|now apply IH].
Qed.

Lemma needs_blank_snoc (ls : list str) (x : str) :
  needs_blank (ls ++ [x]) = negb (is_blank x).
Proof.
  unfold needs_blank. rewrite last_last. now destruct ls.
Qed.

Lemma alias_separator_free :
  ~ In ch_newline Bash.clear_aws_alias /\ Bash.clear_aws_alias <> [].
Proof.
  split; [|discriminate].
  intros H. apply (In_nth _ _ 0%N) in H as (n & Hn & H).
  assert (E : forallb (fun c => negb (N.eqb c ch_newline)) Bash.clear_aws_alias = true)
    by (vm_compute; reflexivity).
  rewrite forallb_forall in E. specialize (E _ (nth_In _ 0%N Hn)).
  rewrite H in E. discriminate.
Qed.

(** C7 (as the code has it): a directive that no line matched is appended
    after the output so far, with one blank line in between exactly when that
    output is non-empty and does not end in a blank line; this holds for the
    POSIX export line and for both PowerShell directives.  The POSIX alias is
    appended directly after the output so far, with no separator. *)
Theorem unmatched_directives_appended (lines : list str) :
  ((forall l, In l lines -> Bash.is_export l = false) ->
   let pre := collapse_blanks false lines in
   exists tail,
     Bash.merge default_profile lines
     = (if needs_blank pre then pre ++ [[]] else pre)
       ++ [Bash.aws_export default_profile] ++ tail
     /\ (tail = [] \/ tail = [Bash.clear_aws_alias]))
  /\
  ((forall l, In l lines -> Bash.has_alias l = false) ->
   let pre := Bash.add_export default_profile (Bash.pass default_profile lines) in
   Bash.merge default_profile lines = pre ++ [Bash.clear_aws_alias])
  /\
  ((forall l, In l lines -> PowerShell.is_env l = false) ->
   let pre := collapse_blanks false lines in
   exists tail,
     PowerShell.merge default_profile lines
     = (if needs_blank pre then pre ++ [[]] else pre)
       ++ [PowerShell.aws_env default_profile] ++ tail
     /\ (tail = [] \/ tail = [] :: split ch_newline PowerShell.clear_aws_function))
  /\
  ((forall l, In l lines ->
              PowerShell.is_env l = false -> PowerShell.is_function l = false) ->
   let pre :=
     PowerShell.add_env default_profile (PowerShell.pass default_profile lines) in
   PowerShell.merge default_profile lines
   = (if needs_blank pre then pre ++ [[]] else pre)
     ++ split ch_newline PowerShell.clear_aws_function).
Proof.
  repeat apply conj.
  - intros H pre. unfold Bash.merge, Bash.add_export, Bash.pass.
    destruct (bash_fold_no_export default_profile lines Bash.init H) as [Hn Ha].
    rewrite Hn, Ha. cbn [Bash.init Bash.new_lines Bash.aws_profile_added
                           Bash.blank_line_count Nat.leb app negb].
    fold pre. unfold with_spacing, Bash.add_alias.
    destruct (contains _ _); cbn [negb].
    + exists []. split; [reflexivity|now left].
    + exists [Bash.clear_aws_alias]. split; [|now right].
      now rewrite <- app_assoc.
  - intros H pre. unfold Bash.merge. fold pre. unfold Bash.add_alias.
    destruct (contains _ _) eqn:E; [|reflexivity].
    destruct alias_separator_free as [Hnl Hne].
    destruct (contains_join_inv _ _ _ Hnl Hne E) as (l & Hl & Hl').
    pose proof (bash_add_export_count_alias lines) as Hc. fold pre in Hc.
    rewrite (count_lines_zero _ _ H) in Hc.
    assert (Hz : count_lines Bash.has_alias pre = 0) by lia.
    pose proof (count_lines_zero_inv _ _ Hz l Hl) as Hf.
    unfold Bash.has_alias in Hf. congruence.
  - intros H pre. unfold PowerShell.merge, PowerShell.add_env, PowerShell.pass.
    destruct (ps_fold_no_env default_profile lines PowerShell.init H) as [Hn Ha].
    rewrite Hn, Ha. cbn [PowerShell.init PowerShell.new_lines
                           PowerShell.aws_profile_added
                           PowerShell.blank_line_count Nat.leb app negb].
    subst pre. unfold PowerShell.add_function.
    destruct (PowerShell.clear_aws_added _); cbn [negb].
    + exists []. split; [reflexivity|now left].
    + exists ([] :: split ch_newline PowerShell.clear_aws_function).
      split; [|now right].
      unfold with_spacing at 1. rewrite needs_blank_snoc.
      change (is_blank (PowerShell.aws_env default_profile)) with false.
      cbn [negb]. unfold with_spacing. now rewrite <- !app_assoc.
  - intros H pre. unfold PowerShell.merge. fold pre.
    unfold PowerShell.pass.
    rewrite (ps_fold_no_function default_profile lines PowerShell.init H).
    reflexivity.
Qed.

Lemma sample_lines_unmatched :
  (forall l, In l sample_lines -> Bash.is_export l = false) /\
  (forall l, In l sample_lines -> Bash.has_alias l = false) /\
  (forall l, In l sample_lines -> PowerShell.is_env l = false) /\
  (forall l, In l sample_lines ->
             PowerShell.is_env l = false -> PowerShell.is_function l = false).
Proof.
  repeat apply conj; intros l [<-|[<-|[]]]; intros; vm_compute; reflexivity.
Qed.

Lemma unmatched_directives_appended_witness :
  ((forall l, In l sample_lines -> Bash.is_export l = false) /\
   (forall l, In l sample_lines -> Bash.has_alias l = false) /\
   (forall l, In l sample_lines -> PowerShell.is_env l = false) /\
   (forall l, In l sample_lines ->
              PowerShell.is_env l = false -> PowerShell.is_function l = false))
  /\
  (exists tail,
     Bash.merge default_profile sample_lines
     = (if needs_blank (collapse_blanks false sample_lines)
        then collapse_blanks false sample_lines ++ [[]]
        else collapse_blanks false sample_lines)
       ++ [Bash.aws_export default_profile] ++ tail
     /\ (tail = [] \/ tail = [Bash.clear_aws_alias]))
  /\
  Bash.merge default_profile sample_lines
  = Bash.add_export default_profile (Bash.pass default_profile sample_lines)
    ++ [Bash.clear_aws_alias]
  /\
  (exists tail,
     PowerShell.merge default_profile sample_lines
     = (if needs_blank (collapse_blanks false sample_lines)
        then collapse_blanks false sample_lines ++ [[]]
        else collapse_blanks false sample_lines)
       ++ [PowerShell.aws_env default_profile] ++ tail
     /\ (tail = [] \/ tail = [] :: split ch_newline PowerShell.clear_aws_function))
  /\
  PowerShell.merge default_profile sample_lines
  = (if needs_blank
          (PowerShell.add_env default_profile
             (PowerShell.pass default_profile sample_lines))
     then PowerShell.add_env default_profile
            (PowerShell.pass default_profile sample_lines) ++ [[]]
     else PowerShell.add_env default_profile
            (PowerShell.pass default_profile sample_lines))
    ++ split ch_newline PowerShell.clear_aws_function.
Proof.
  refine (conj sample_lines_unmatched _).
  refine (match unmatched_directives_appended sample_lines,
                sample_lines_unmatched with
          | conj A (conj B (conj C D)), conj h1 (conj h2 (conj h3 h4)) =>
              conj (A h1) (conj (B h2) (conj (C h3) (D h4)))
          end).
Defined.

(** C7, counterexample: on an empty [.bashrc] the alias is not matched, the
    output so far is the export line alone (non-empty, not ending in a blank
    line), and the alias follows it with no blank line in between. *)
Lemma bash_alias_appended_without_separator :
  Bash.add_export default_profile (Bash.pass default_profile [])
  = [Bash.aws_export default_profile] /\
  Bash.has_alias (Bash.aws_export default_profile) = false /\
  needs_blank [Bash.aws_export default_profile] = true /\
  Bash.merge default_profile []
  = [Bash.aws_export default_profile; Bash.clear_aws_alias] /\
  Bash.merge default_profile []
  <> [Bash.aws_export default_profile; []; Bash.clear_aws_alias].
Proof.
  repeat apply conj; try (vm_compute; reflexivity).
  intros H. vm_compute in H. discriminate H.
Qed.

(** ** What the adapters write *)

Lemma count_lines_pos_exists (p : str -> bool) (ls : list str) :
  0 < count_lines p ls -> exists l, In l ls /\ p l = true.
Proof.
  unfold count_lines. induction ls as [|x ls IH]; simpl; [lia|].
  destruct (p x) eqn:E.
  - intros _. exists x. auto.
  - intros H. destruct (IH H) as (l & Hl & Hp). exists l. auto.
Qed.

Lemma bash_pass_export_canonical (dp : str) (lines : list str) :
  forall l, In l (Bash.new_lines (Bash.pass dp lines)) ->
            Bash.is_export l = true -> l = Bash.aws_export dp.
Proof.
  induction lines as [|x lines IH] using rev_ind; [easy|].
  intros l. rewrite bash_pass_snoc.
  destruct (bash_step_cases dp (Bash.pass dp lines) x)
    as [(Hn & _) | [(Hn & He & _) | (Hn & _)]]; rewrite Hn.
  - rewrite in_app_iff. intros [H|[<-|[]]] Hl; [now apply IH|reflexivity].
  - rewrite in_app_iff. intros [H|[<-|[]]] Hl; [now apply IH|congruence].
  - apply IH.
Qed.

(** Every export line of the rewritten [.bashrc] is the canonical one, and it
    is there. *)
Lemma bash_merge_export_lines (lines : list str) :
  In (Bash.aws_export default_profile) (Bash.merge default_profile lines) /\
  forall l, In l (Bash.merge default_profile lines) ->
            Bash.is_export l = true -> l = Bash.aws_export default_profile.
Proof.
  assert (H : forall l, In l (Bash.merge default_profile lines) ->
                        Bash.is_export l = true ->
                        l = Bash.aws_export default_profile).
  { intros l. unfold Bash.merge, Bash.add_alias, Bash.add_export.
    assert (Hstage : In l (if negb (Bash.aws_profile_added
                                      (Bash.pass default_profile lines))
                           then with_spacing
                                  (Bash.new_lines (Bash.pass default_profile lines))
                                ++ [Bash.aws_export default_profile]
                           else Bash.new_lines (Bash.pass default_profile lines)) ->
                     Bash.is_export l = true -> l = Bash.aws_export default_profile).
    { destruct (negb _).
      - rewrite in_app_iff. intros [Hl|[<-|[]]] He; [|reflexivity].
        destruct (in_with_spacing _ _ Hl) as [->|Hl']; [discriminate|].
        now apply (bash_pass_export_canonical default_profile lines).
      - apply bash_pass_export_canonical. }
    destruct (negb (contains _ _)); [|exact Hstage].
    rewrite in_app_iff. intros [Hl|[<-|[]]] He; [now apply Hstage|].
    now rewrite alias_not_export in He. }
  split; [|exact H].
  destruct (count_lines_pos_exists Bash.is_export (Bash.merge default_profile lines))
    as (l & Hl & He).
  { rewrite bash_merge_count_export. lia. }
  now rewrite <- (H l Hl He).
Qed.

Lemma ps_pass_env_canonical (dp : str) (lines : list str) :
  forall l, In l (PowerShell.new_lines (PowerShell.pass dp lines)) ->
            PowerShell.is_env l = true -> l = PowerShell.aws_env dp.
Proof.
  induction lines as [|x lines IH] using rev_ind; [easy|].
  intros l. rewrite ps_pass_snoc.
  destruct (ps_step_cases dp (PowerShell.pass dp lines) x)
    as [(Hn & _) | [(Hn & He & _) | (Hn & _)]]; rewrite Hn.
  - rewrite in_app_iff. intros [H|[<-|[]]] Hl; [now apply IH|reflexivity].
  - rewrite in_app_iff. intros [H|[<-|[]]] Hl; [now apply IH|congruence].
  - apply IH.
Qed.

Lemma ps_add_env_canonical (dp : str) (lines : list str) :
  In (PowerShell.aws_env dp) (PowerShell.add_env dp (PowerShell.pass dp lines)) /\
  forall l, In l (PowerShell.add_env dp (PowerShell.pass dp lines)) ->
            PowerShell.is_env l = true -> l = PowerShell.aws_env dp.
Proof.
  assert (H : forall l, In l (PowerShell.add_env dp (PowerShell.pass dp lines)) ->
                        PowerShell.is_env l = true -> l = PowerShell.aws_env dp).
  { intros l. unfold PowerShell.add_env. destruct (negb _).
    - rewrite in_app_iff. intros [Hl|[<-|[]]] He; [|reflexivity].
      destruct (in_with_spacing _ _ Hl) as [->|Hl']; [discriminate|].
      now apply (ps_pass_env_canonical dp lines).
    - apply ps_pass_env_canonical. }
  split; [|exact H].
  destruct (count_lines_pos_exists PowerShell.is_env
              (PowerShell.add_env dp (PowerShell.pass dp lines)))
    as (l & Hl & He).
  { rewrite ps_add_env_count_env. lia. }
  now rewrite <- (H l Hl He).
Qed.

Lemma function_block_env_lines :
  forall l, In l (split ch_newline PowerShell.clear_aws_function) ->
            PowerShell.is_env l = true ->
            strip l = PowerShell.aws_env default_profile.
Proof.
  assert (E : forallb (fun l => implb (PowerShell.is_env l)
                                  (str_eqb (strip l) (PowerShell.aws_env default_profile)))
                (split ch_newline PowerShell.clear_aws_function) = true)
    by (vm_compute; reflexivity).
  rewrite forallb_forall in E. intros l Hl He. specialize (E l Hl).
  rewrite He in E. now apply str_eqb_eq.
Qed.

(** Every line of the rewritten PowerShell profile that mentions the variable
    assigns the default profile, and the canonical assignment is there. *)
Lemma ps_merge_env_lines (lines : list str) :
  In (PowerShell.aws_env default_profile) (PowerShell.merge default_profile lines) /\
  forall l, In l (PowerShell.merge default_profile lines) ->
            PowerShell.is_env l = true ->
            strip l = PowerShell.aws_env default_profile.
Proof.
  destruct (ps_add_env_canonical default_profile lines) as [Hin Hall].
  unfold PowerShell.merge, PowerShell.add_function.
  destruct (negb _).
  - split.
    + apply in_or_app. left. unfold with_spacing.
      destruct (needs_blank _); [apply in_or_app; now left|exact Hin].
    + intros l. rewrite in_app_iff. intros [Hl|Hl] He.
      * destruct (in_with_spacing _ _ Hl) as [->|Hl']; [discriminate|].
        now rewrite (Hall l Hl' He).
      * now apply function_block_env_lines.
  - split; [exact Hin|]. intros l Hl He. now rewrite (Hall l Hl He).
Qed.

Lemma setup_bash_profile_frame (dp : str) (m : machine) :
  ps_profile (_setup_bash_profile dp m) = ps_profile m /\
  registry_env (_setup_bash_profile dp m) = registry_env m.
Proof. unfold _setup_bash_profile. now destruct (bashrc m). Qed.

Lemma setup_powershell_profile_frame (dp : str) (m : machine) :
  bashrc (_setup_powershell_profile dp m) = bashrc m /\
  registry_env (_setup_powershell_profile dp m) = registry_env m.
Proof. unfold _setup_powershell_profile. now destruct (ps_profile m). Qed.

Lemma setup_cmd_profile_frame (dp : str) (m : machine) :
  bashrc (_setup_cmd_profile dp m) = bashrc m /\
  ps_profile (_setup_cmd_profile dp m) = ps_profile m.
Proof. unfold _setup_cmd_profile. now destruct (registry_env m). Qed.

Lemma setup_bash_profile_writes (dp : str) (m : machine) :
  bashrc m <> Unreadable ->
  exists lines, bashrc (_setup_bash_profile dp m)
                = Text (join [ch_newline] (Bash.merge dp lines)).
Proof.
  unfold _setup_bash_profile, Bash.rewrite. destruct (bashrc m) as [|c|]; intros H.
  - now exists (lines_of []).
  - now exists (lines_of c).
  - easy.
Qed.

Lemma setup_powershell_profile_writes (dp : str) (m : machine) :
  ps_profile m <> Unreadable ->
  exists lines, ps_profile (_setup_powershell_profile dp m)
                = Text (join [ch_newline] (PowerShell.merge dp lines)).
Proof.
  unfold _setup_powershell_profile, PowerShell.rewrite.
  destruct (ps_profile m) as [|c|]; intros H.
  - now exists (lines_of []).
  - now exists (lines_of c).
  - easy.
Qed.

(** C10: with no profile name [setup_global_profile] leaves the machine as it
    is.  With at least one, whatever the names are, the [.bashrc] written
    holds the line [export AWS_DEFAULT_PROFILE=default] and no other export
    of that variable, every line of the PowerShell profile written that
    mentions the variable assigns ['default'], and the registry value is
    [default]. *)
Theorem setup_global_profile_default (profile_names : list str) (m : machine) :
  setup_global_profile [] m = m /\
  (profile_names <> [] ->
   let m' := setup_global_profile profile_names m in
   (bashrc m <> Unreadable ->
    exists ls,
      bashrc m' = Text (join [ch_newline] ls) /\
      In (lit "export AWS_DEFAULT_PROFILE=default") ls /\
      forall l, In l ls -> Bash.is_export l = true ->
                l = lit "export AWS_DEFAULT_PROFILE=default")
   /\
   (ps_profile m <> Unreadable ->
    exists ls,
      ps_profile m' = Text (join [ch_newline] ls) /\
      In (lit "$env:AWS_DEFAULT_PROFILE = 'default'") ls /\
      forall l, In l ls -> PowerShell.is_env l = true ->
                strip l = lit "$env:AWS_DEFAULT_PROFILE = 'default'")
   /\
   (forall env,
       registry_env m = Some env ->
       exists env',
         registry_env m' = Some env' /\
         assoc_get (lit "AWS_DEFAULT_PROFILE") env' = Some (lit "default"))
   /\
   (forall other_names,
       other_names <> [] -> setup_global_profile other_names m = m')).
Proof.
  split; [reflexivity|].
  intros Hne m'. destruct profile_names as [|n ns]; [easy|].
  subst m'. cbn [setup_global_profile].
  set (m1 := _setup_bash_profile default_profile m).
  set (m2 := _setup_powershell_profile default_profile m1).
  destruct (setup_bash_profile_frame default_profile m) as [Hb1 Hb2].
  destruct (setup_powershell_profile_frame default_profile m1) as [Hp1 Hp2].
  destruct (setup_cmd_profile_frame default_profile m2) as [Hc1 Hc2].
  fold m1 in Hb1, Hb2. fold m2 in Hp1, Hp2.
  repeat apply conj.
  - intros Hr. destruct (setup_bash_profile_writes default_profile m Hr) as [lines Hw].
    exists (Bash.merge default_profile lines).
    rewrite Hc1, Hp1. fold m1 in Hw. split; [exact Hw|].
    apply (bash_merge_export_lines lines).
  - intros Hr. rewrite <- Hb1 in Hr.
    destruct (setup_powershell_profile_writes default_profile m1 Hr) as [lines Hw].
    exists (PowerShell.merge default_profile lines).
    rewrite Hc2. fold m2 in Hw. split; [exact Hw|].
    apply (ps_merge_env_lines lines).
  - intros env He. unfold _setup_cmd_profile. rewrite Hp2, Hb2, He.
    eexists. split; [reflexivity|]. apply assoc_get_set_same.
  - intros [|n' ns'] Ho; [easy|reflexivity].
Qed.

Lemma setup_global_profile_default_witness :
  [sample_profile_name] <> [] /\
  bashrc sample_machine <> Unreadable /\
  ps_profile sample_machine <> Unreadable /\
  registry_env sample_machine = Some [(lit "PATH", lit "C:\Windows")] /\
  (exists ls,
      bashrc (setup_global_profile [sample_profile_name] sample_machine)
      = Text (join [ch_newline] ls) /\
      In (lit "export AWS_DEFAULT_PROFILE=default") ls /\
      forall l, In l ls -> Bash.is_export l = true ->
                l = lit "export AWS_DEFAULT_PROFILE=default") /\
  (exists ls,
      ps_profile (setup_global_profile [sample_profile_name] sample_machine)
      = Text (join [ch_newline] ls) /\
      In (lit "$env:AWS_DEFAULT_PROFILE = 'default'") ls /\
      forall l, In l ls -> PowerShell.is_env l = true ->
                strip l = lit "$env:AWS_DEFAULT_PROFILE = 'default'") /\
  (exists env',
      registry_env (setup_global_profile [sample_profile_name] sample_machine)
      = Some env' /\
      assoc_get (lit "AWS_DEFAULT_PROFILE") env' = Some (lit "default")) /\
  setup_global_profile [lit "sso-222222222222-ReadOnly"] sample_machine
  = setup_global_profile [sample_profile_name] sample_machine.
Proof.
  assert (H0 : [sample_profile_name] <> []) by discriminate.
  assert (H1 : bashrc sample_machine <> Unreadable) by discriminate.
  assert (H2 : ps_profile sample_machine <> Unreadable) by discriminate.
  assert (H3 : [lit "sso-222222222222-ReadOnly"] <> []) by discriminate.
  refine (conj H0 (conj H1 (conj H2 (conj eq_refl _)))).
  refine (match proj2 (setup_global_profile_default [sample_profile_name] sample_machine) H0
          with
          | conj A (conj B (conj C D)) =>
              conj (A H1) (conj (B H2) (conj (C _ eq_refl) (D _ H3)))
          end).
Defined.

(** ** Running the merge twice *)

(** C1, at the failing inputs.  On an empty (or missing) PowerShell profile
    the first run writes the five-line [Clear-AWS] block; the second run takes
    the block's own assignment line for a stale copy of the directive and
    drops it, so the second output differs from the first and the block has
    lost a line.  On a [.bashrc] where blank lines surround a duplicate export
    line, the first run leaves two blank lines in a row, which the second run
    then collapses. *)
Theorem second_run_changes_output :
  let once := PowerShell.rewrite default_profile [] in
  let twice := PowerShell.rewrite default_profile once in
  let inner := lit "    $env:AWS_DEFAULT_PROFILE = 'default'" in
  let rc := [ lit "export AWS_DEFAULT_PROFILE=dev"; [];
              lit "export AWS_DEFAULT_PROFILE=prod"; []; lit "umask 022" ] in
  (existsb (str_eqb inner) (lines_of once) = true /\
   existsb (str_eqb inner) (lines_of twice) = false /\
   length (lines_of once) = 7 /\ length (lines_of twice) = 6 /\
   twice <> once)
  /\
  (Bash.merge default_profile rc
   = [ Bash.aws_export default_profile; []; []; lit "umask 022";
       Bash.clear_aws_alias ] /\
   Bash.merge default_profile (Bash.merge default_profile rc)
   = [ Bash.aws_export default_profile; []; lit "umask 022";
       Bash.clear_aws_alias ]).
Proof.
  cbv zeta. repeat apply conj; try (vm_compute; reflexivity).
  apply str_eqb_neq. vm_compute. reflexivity.
Qed.

(** * Further properties of the program *)

(** ** Names with more separators than expected *)

Lemma first_occurrence (c : char) (s : str) :
  In c s -> exists x y, s = x ++ c :: y /\ ~ In c x.
Proof.
  induction s as [|b s IH]; [easy|]. intros H.
  destruct (N.eq_dec b c) as [->|Hbc].
  - exists [], s. split; [reflexivity|easy].
  - destruct H as [H|H]; [contradiction|].
    destruct (IH H) as (x & y & -> & Hx).
    exists (b :: x), y. split; [reflexivity|].
    intros [E|E]; [congruence|contradiction].
Qed.

Lemma count_char_app (c : char) (a b : str) :
  count_char c (a ++ b) = count_char c a + count_char c b.
Proof. apply count_occ_app. Qed.

Lemma count_char_cons_same (c : char) (s : str) :
  count_char c (c :: s) = S (count_char c s).
Proof. now apply count_occ_cons_eq. Qed.

Lemma count_char_none (c : char) (s : str) : ~ In c s -> count_char c s = 0.
Proof. apply count_occ_not_In. Qed.

Lemma count_char_pos (c : char) (s : str) : 0 < count_char c s -> In c s.
Proof. intros H. now apply (count_occ_In N.eq_dec). Qed.

Lemma parse_of_two_separators (pre a r : str) :
  ~ In ch_dash pre -> ~ In ch_dash a ->
  parse_profile_name (pre ++ ch_dash :: a ++ ch_dash :: r) = Ok (a, r).
Proof.
  intros Hpre Ha. unfold parse_profile_name.
  rewrite (split_app_sep _ _ _ Hpre), (split_app_sep _ _ _ Ha).
  rewrite (splitn_app_sep _ 1 _ _ Hpre), (splitn_app_sep _ 0 _ _ Ha), splitn_0.
  reflexivity.
Qed.

(** X1: a profile name with at least two ['-'] always parses: the account id
    is the text between the first and the second ['-'], the role name is
    everything after the second one, and whatever stands before the first
    ['-'] is ignored. *)
Theorem parse_profile_name_decomposes (profile_name : str) :
  2 <= count_char ch_dash profile_name ->
  exists pre account_id role_name,
    parse_profile_name profile_name = Ok (account_id, role_name) /\
    profile_name = pre ++ ch_dash :: account_id ++ ch_dash :: role_name /\
    ~ In ch_dash pre /\ ~ In ch_dash account_id.
Proof.
  intros H.
  destruct (first_occurrence ch_dash profile_name) as (pre & s1 & -> & Hpre).
  { apply count_char_pos. lia. }
  rewrite count_char_app, count_char_cons_same, (count_char_none _ _ Hpre) in H.
  destruct (first_occurrence ch_dash s1) as (a & r & -> & Ha).
  { apply count_char_pos. lia. }
  exists pre, a, r. repeat split; try assumption.
  now apply parse_of_two_separators.
Qed.

Lemma parse_profile_name_decomposes_witness :
  2 <= count_char ch_dash (lit "dev-42-Read-Only") /\
  exists pre account_id role_name,
    parse_profile_name (lit "dev-42-Read-Only") = Ok (account_id, role_name) /\
    lit "dev-42-Read-Only" = pre ++ ch_dash :: account_id ++ ch_dash :: role_name /\
    ~ In ch_dash pre /\ ~ In ch_dash account_id.
Proof.
  assert (H : 2 <= count_char ch_dash (lit "dev-42-Read-Only"))
    by (vm_compute; lia).
  exact (conj H (parse_profile_name_decomposes _ H)).
Defined.

(** X2: parsing a formatted name never raises, whatever the account id and
    the role name are, and the pair it returns formats back to the same name.
    When the account id itself contains ['-'], the parsed account id is only
    its part before the first ['-'] (the rest moves into the role name). *)
Theorem parse_of_format_total (account_id role_name : str) :
  exists a r,
    parse_profile_name (format_profile_name account_id role_name) = Ok (a, r) /\
    format_profile_name a r = format_profile_name account_id role_name /\
    ~ In ch_dash a /\
    exists moved, account_id = a ++ moved.
Proof.
  assert (Hsso : ~ In ch_dash (lit "sso")) by (vm_compute; intuition discriminate).
  unfold format_profile_name.
  change (lit "sso-") with (lit "sso" ++ [ch_dash]).
  change (lit "-") with [ch_dash].
  destruct (in_dec N.eq_dec ch_dash account_id) as [Hin|Hnin].
  - destruct (first_occurrence _ _ Hin) as (a & y & -> & Ha).
    exists a, (y ++ ch_dash :: role_name). repeat split.
    + rewrite <- !app_assoc. cbn [app].
      now apply parse_of_two_separators.
    + now rewrite <- !app_assoc.
    + exact Ha.
    + now exists (ch_dash :: y).
  - exists account_id, role_name. repeat split.
    + rewrite <- !app_assoc. cbn [app].
      now apply parse_of_two_separators.
    + exact Hnin.
    + exists []. now rewrite app_nil_r.
Qed.

(** ** The shape of the normalized start URL *)

Lemma lstrip_by_eqb_repeat (c : char) (s : str) :
  exists n,
    s = repeat c n ++ lstrip_by (N.eqb c) s /\
    hd_error (lstrip_by (N.eqb c) s) <> Some c.
Proof.
  induction s as [|b s IH]; cbn [lstrip_by].
  - exists 0. split; [reflexivity|discriminate].
  - destruct (N.eqb c b) eqn:E.
    + apply N.eqb_eq in E. subst b. destruct IH as (n & Hs & Hh).
      exists (S n). split; [cbn [repeat app]; now rewrite <- Hs|exact Hh].
    + exists 0. split; [reflexivity|].
      cbn. apply N.eqb_neq in E. congruence.
Qed.

Lemma rev_repeat (c : char) (n : nat) : rev (repeat c n) = repeat c n.
Proof.
  induction n as [|n IH]; [reflexivity|].
  cbn [repeat rev]. rewrite IH. symmetry. apply repeat_cons.
Qed.

Lemma rstrip_char_repeat (c : char) (s : str) :
  exists n,
    s = rstrip_char c s ++ repeat c n /\
    endswith [c] (rstrip_char c s) = false.
Proof.
  unfold rstrip_char, rstrip_by, endswith.
  destruct (lstrip_by_eqb_repeat c (rev s)) as (n & Hs & Hh).
  exists n. split.
  - apply (f_equal (@rev char)) in Hs.
    rewrite rev_involutive, rev_app_distr, rev_repeat in Hs. exact Hs.
  - rewrite rev_involutive. cbn [rev app].
    destruct (lstrip_by (N.eqb c) (rev s)) as [|b t]; [reflexivity|].
    cbn [startswith]. destruct (N.eqb c b) eqn:E; [|reflexivity].
    apply N.eqb_eq in E. subst b. now contradiction Hh.
Qed.

(** X3: when the configured URL does not already end in ["/#"], the
    normalized URL is the configured one with its trailing ['/'] characters,
    and nothing else, replaced by ["/#"]: the part kept does not end in
    ['/']. *)
Theorem normalize_sso_start_url_shape (u : str) :
  endswith (lit "/#") u = false ->
  exists v n,
    u = v ++ repeat ch_slash n /\
    endswith [ch_slash] v = false /\
    normalize_sso_start_url u = v ++ lit "/#".
Proof.
  intros H. destruct (rstrip_char_repeat ch_slash u) as (n & Hu & He).
  exists (rstrip_char ch_slash u), n. repeat split; try assumption.
  unfold normalize_sso_start_url. now rewrite H.
Qed.

Lemma normalize_sso_start_url_shape_witness :
  endswith (lit "/#") (lit "https://d-abc123.awsapps.com/start//") = false /\
  exists v n,
    lit "https://d-abc123.awsapps.com/start//" = v ++ repeat ch_slash n /\
    endswith [ch_slash] v = false /\
    normalize_sso_start_url (lit "https://d-abc123.awsapps.com/start//")
    = v ++ lit "/#".
Proof.
  exact (conj eq_refl
           (normalize_sso_start_url_shape
              (lit "https://d-abc123.awsapps.com/start//") eq_refl)).
Defined.

(** ** When an update cannot fail *)






Section PlainSettings.
Variables (cfg : AWSConfig) (url region dflt out : str).
Hypothesis Hurl : sso_start_url cfg = Ok url.
Hypothesis Hregion : sso_region cfg = Ok region.
Hypothesis Hdflt : default_region cfg = Ok dflt.
Hypothesis Hout : output_format cfg = Ok out.
Hypothesis Purl : ~ In ch_percent url.
Hypothesis Pregion : ~ In ch_percent region.
Hypothesis Pdflt : ~ In ch_percent dflt.
Hypothesis Pout : ~ In ch_percent out.



End PlainSettings.





(** ** The config file after the profile loop *)





Section ProfileLoop.
Variables (cfg : AWSConfig) (url region dflt out : str).
Hypothesis Hurl : sso_start_url cfg = Ok url.
Hypothesis Hregion : sso_region cfg = Ok region.
Hypothesis Hdflt : default_region cfg = Ok dflt.
Hypothesis Hout : output_format cfg = Ok out.
Hypothesis Purl : ~ In ch_percent url.
Hypothesis Pregion : ~ In ch_percent region.
Hypothesis Pdflt : ~ In ch_percent dflt.
Hypothesis Pout : ~ In ch_percent out.



End ProfileLoop.






(** ** The SSO profile section *)

Lemma named_section_is_section (name : str) :
  named_section name <> [] /\ str_eqb (named_section name) default_section = false.
Proof. split; [discriminate|reflexivity]. Qed.

(** X7: when the config file already has the section [profile <sso_profile>],
    [ensure_sso_profile_exists] returns without reading a setting and without
    writing, so it succeeds even when settings are missing or the file is
    read-only, and whatever the section holds stays. *)
Theorem ensure_sso_profile_exists_present
  (cfg : AWSConfig) (name : str) (st : config_store) (d : section) :
  assoc_get (named_section name) (cp_sections (read_config st)) = Some d ->
  ensure_sso_profile_exists cfg (Ok name) st = Ok st.
Proof.
  intros H. unfold ensure_sso_profile_exists, cp_contains. cbn [bind].
  now rewrite H, orb_true_r.
Qed.

Lemma ensure_sso_profile_exists_present_witness :
  assoc_get (named_section (lit "legacy")) (cp_sections (read_config sample_locked_store))
  = Some [(lit "region", lit "eu-west-1")] /\
  ensure_sso_profile_exists sample_config (Ok (lit "legacy")) sample_locked_store
  = Ok sample_locked_store.
Proof.
  exact (conj eq_refl
           (ensure_sso_profile_exists_present sample_config (lit "legacy")
              sample_locked_store [(lit "region", lit "eu-west-1")] eq_refl)).
Defined.

(** X8: when the section is missing and the call succeeds, the section
    [profile <sso_profile>] is appended after the existing sections with the
    start URL exactly as configured (not normalized), the SSO region, the
    region and the output format; nothing else changes, and a second call
    returns the same file. *)
Theorem ensure_sso_profile_exists_creates
  (cfg : AWSConfig) (name : str) (st st' : config_store) :
  assoc_get (named_section name) (cp_sections (read_config st)) = None ->
  ensure_sso_profile_exists cfg (Ok name) st = Ok st' ->
  exists url region dflt out,
    sso_start_url cfg = Ok url /\ sso_region cfg = Ok region /\
    default_region cfg = Ok dflt /\ output_format cfg = Ok out /\
    cp_defaults (read_config st') = cp_defaults (read_config st) /\
    cp_sections (read_config st')
    = cp_sections (read_config st)
      ++ [ (named_section name,
            [ (lit "sso_start_url", url); (lit "sso_region", region);
              (lit "region", dflt); (lit "output", out) ]) ] /\
    ensure_sso_profile_exists cfg (Ok name) st' = Ok st'.
Proof.
  intros Habs. unfold ensure_sso_profile_exists at 1, cp_contains. cbn [bind].
  rewrite Habs, (proj2 (named_section_is_section name)). cbn [orb negb].
  destruct (sso_start_url cfg) as [url|]; cbn [bind]; [|discriminate].
  destruct (sso_region cfg) as [region|]; cbn [bind]; [|discriminate].
  destruct (default_region cfg) as [dflt|]; cbn [bind]; [|discriminate].
  destruct (output_format cfg) as [out|]; cbn [bind]; [|discriminate].
  rewrite setitem_eq; try apply named_section_is_section.
  destruct (forallb _ _); cbn [bind]; [|discriminate].
  destruct (config_writable st); [|discriminate].
  intros E. inversion E. subst st'. clear E.
  exists url, region, dflt, out.
  cbn [read_config config_file cp_defaults cp_sections].
  change (dict_of [(lit "sso_start_url", url); (lit "sso_region", region);
                   (lit "region", dflt); (lit "output", out)])
    with [(lit "sso_start_url", url); (lit "sso_region", region);
          (lit "region", dflt); (lit "output", out)].
  repeat split.
  - now apply assoc_set_absent.
  - eapply ensure_sso_profile_exists_present. cbn [read_config config_file cp_sections].
    apply assoc_get_set_same.
Qed.

Lemma ensure_sso_profile_exists_creates_witness :
  exists st',
    assoc_get (named_section (lit "corp")) (cp_sections (read_config sample_store))
    = None /\
    ensure_sso_profile_exists sample_config (Ok (lit "corp")) sample_store = Ok st' /\
    exists url region dflt out,
      sso_start_url sample_config = Ok url /\ sso_region sample_config = Ok region /\
      default_region sample_config = Ok dflt /\ output_format sample_config = Ok out /\
      cp_defaults (read_config st') = cp_defaults (read_config sample_store) /\
      cp_sections (read_config st')
      = cp_sections (read_config sample_store)
        ++ [ (named_section (lit "corp"),
              [ (lit "sso_start_url", url); (lit "sso_region", region);
                (lit "region", dflt); (lit "output", out) ]) ] /\
      ensure_sso_profile_exists sample_config (Ok (lit "corp")) st' = Ok st'.
Proof.
  assert (H : exists st',
             ensure_sso_profile_exists sample_config (Ok (lit "corp")) sample_store
             = Ok st') by (eexists; vm_compute; reflexivity).
  destruct H as [st' H]. exists st'.
  exact (conj eq_refl (conj H
    (ensure_sso_profile_exists_creates sample_config (lit "corp") sample_store st'
       eq_refl H))).
Defined.

(** ** The credentials file *)

(** X9: a successful [_update_credentials_file] for a profile name other
    than the empty one and [DEFAULT] leaves the section of that name holding
    exactly the three credential values (nothing of an older section
    survives), changes no other section and no [DEFAULT] option, and changes
    nothing when repeated. *)
Theorem update_credentials_file_overwrites
  (credentials : list (str * str)) (profile_name : str) (st st' : config_store) :
  profile_name <> [] -> profile_name <> default_section ->
  _update_credentials_file credentials profile_name st = Returned st' ->
  exists key_id secret token,
    assoc_get (lit "accessKeyId") credentials = Some key_id /\
    assoc_get (lit "secretAccessKey") credentials = Some secret /\
    assoc_get (lit "sessionToken") credentials = Some token /\
    assoc_get profile_name (cp_sections (read_config st'))
    = Some [ (lit "aws_access_key_id", key_id);
             (lit "aws_secret_access_key", secret);
             (lit "aws_session_token", token) ] /\
    cp_defaults (read_config st') = cp_defaults (read_config st) /\
    (forall s, s <> profile_name ->
       assoc_get s (cp_sections (read_config st'))
       = assoc_get s (cp_sections (read_config st))) /\
    _update_credentials_file credentials profile_name st' = Returned st'.
Proof.
  intros Hne Hnd. apply str_eqb_neq in Hnd.
  unfold _update_credentials_file, dict_lookup.
  destruct (assoc_get (lit "accessKeyId") credentials) as [k|];
    cbn [obind]; [|discriminate].
  destruct (assoc_get (lit "secretAccessKey") credentials) as [s|];
    cbn [obind]; [|discriminate].
  destruct (assoc_get (lit "sessionToken") credentials) as [t|];
    cbn [obind]; [|discriminate].
  rewrite !setitem_eq by assumption.
  change (dict_of [(lit "aws_access_key_id", k); (lit "aws_secret_access_key", s);
                   (lit "aws_session_token", t)])
    with [(lit "aws_access_key_id", k); (lit "aws_secret_access_key", s);
          (lit "aws_session_token", t)].
  destruct (forallb _ _); cbn [lift obind]; [|discriminate].
  destruct (config_writable st); [|discriminate].
  intros E. inversion E. subst st'. clear E.
  exists k, s, t. cbn [read_config config_file cp_defaults cp_sections config_writable].
  repeat split.
  - apply assoc_get_set_same.
  - intros x Hx. apply assoc_get_set_other. now apply str_eqb_neq.
  - now rewrite assoc_set_set.
Qed.

Lemma update_credentials_file_overwrites_witness :
  exists st',
    lit "sso-111111111111-Admin" <> [] /\
    lit "sso-111111111111-Admin" <> default_section /\
    _update_credentials_file sample_credentials (lit "sso-111111111111-Admin") sample_store
    = Returned st' /\
    exists key_id secret token,
      assoc_get (lit "accessKeyId") sample_credentials = Some key_id /\
      assoc_get (lit "secretAccessKey") sample_credentials = Some secret /\
      assoc_get (lit "sessionToken") sample_credentials = Some token /\
      assoc_get (lit "sso-111111111111-Admin") (cp_sections (read_config st'))
      = Some [ (lit "aws_access_key_id", key_id);
               (lit "aws_secret_access_key", secret);
               (lit "aws_session_token", token) ] /\
      cp_defaults (read_config st') = cp_defaults (read_config sample_store) /\
      (forall s, s <> lit "sso-111111111111-Admin" ->
         assoc_get s (cp_sections (read_config st'))
         = assoc_get s (cp_sections (read_config sample_store))) /\
      _update_credentials_file sample_credentials (lit "sso-111111111111-Admin") st'
      = Returned st'.
Proof.
  assert (H : exists st',
             _update_credentials_file sample_credentials
               (lit "sso-111111111111-Admin") sample_store = Returned st')
    by (eexists; vm_compute; reflexivity).
  destruct H as [st' H]. exists st'.
  assert (H1 : lit "sso-111111111111-Admin" <> []) by discriminate.
  assert (H2 : lit "sso-111111111111-Admin" <> default_section) by discriminate.
  exact (conj H1 (conj H2 (conj H
    (update_credentials_file_overwrites sample_credentials _ sample_store st' H1 H2 H)))).
Defined.

(** ** The token cache *)

Lemma max_by_mtime_spec (rest : list SSOTokenManager.cache_file) :
  forall best,
    let m := SSOTokenManager.max_by_mtime best rest in
    In m (best :: rest) /\
    forall g, In g (best :: rest) ->
              (SSOTokenManager.st_mtime g <= SSOTokenManager.st_mtime m)%N.
Proof.
  induction rest as [|f rest IH]; intros best; cbn [SSOTokenManager.max_by_mtime].
  - cbv zeta. split; [now left|]. intros g [<-|[]]. apply N.le_refl.
  - cbv zeta.
    destruct (IH (if (SSOTokenManager.st_mtime best <? SSOTokenManager.st_mtime f)%N
                  then f else best)) as [Hin Hmax].
    cbv zeta in Hin, Hmax. split.
    + destruct Hin as [E|Hin]; [|right; now right].
      rewrite <- E. destruct (_ <? _)%N; [right; now left|now left].
    + intros g Hg.
      destruct (SSOTokenManager.st_mtime best <? SSOTokenManager.st_mtime f)%N eqn:E.
      * apply N.ltb_lt in E. destruct Hg as [<-|[<-|Hg]].
        -- specialize (Hmax f (or_introl eq_refl)). lia.
        -- apply Hmax. now left.
        -- apply Hmax. now right.
      * apply N.ltb_ge in E. destruct Hg as [<-|[<-|Hg]].
        -- apply Hmax. now left.
        -- specialize (Hmax best (or_introl eq_refl)). lia.
        -- apply Hmax. now right.
Qed.

(** X10: [get_latest_access_token] raises [FileNotFoundError] when the cache
    directory is missing or holds no [.json] entry; otherwise it returns what
    reading the token gives for a [.json] entry of the directory whose
    modification time no other [.json] entry exceeds (entries with another
    suffix are never looked at, however recent). *)
Theorem get_latest_access_token_newest (entries : list SSOTokenManager.cache_file) :
  SSOTokenManager.get_latest_access_token None = Raised (Builtin FileNotFoundError) /\
  ((forall f, In f entries -> SSOTokenManager.is_json f = false) ->
   SSOTokenManager.get_latest_access_token (Some entries)
   = Raised (Builtin FileNotFoundError)) /\
  (forall f0, In f0 entries -> SSOTokenManager.is_json f0 = true ->
     exists f,
       In f entries /\ SSOTokenManager.is_json f = true /\
       (forall g, In g entries -> SSOTokenManager.is_json g = true ->
                  (SSOTokenManager.st_mtime g <= SSOTokenManager.st_mtime f)%N) /\
       SSOTokenManager.get_latest_access_token (Some entries)
       = SSOTokenManager.accessToken f).
Proof.
  split; [reflexivity|]. split.
  - intros H. unfold SSOTokenManager.get_latest_access_token.
    destruct (filter SSOTokenManager.is_json entries) as [|f rest] eqn:E; [reflexivity|].
    assert (Hf : In f (filter SSOTokenManager.is_json entries)) by (rewrite E; now left).
    apply filter_In in Hf as [Hf1 Hf2]. rewrite (H f Hf1) in Hf2. discriminate.
  - intros f0 H0 J0. unfold SSOTokenManager.get_latest_access_token.
    destruct (filter SSOTokenManager.is_json entries) as [|b rest] eqn:E.
    + assert (Hf : In f0 (filter SSOTokenManager.is_json entries))
        by (apply filter_In; now split).
      now rewrite E in Hf.
    + destruct (max_by_mtime_spec rest b) as [Hin Hmax]. cbv zeta in Hin, Hmax.
      exists (SSOTokenManager.max_by_mtime b rest).
      rewrite <- E in Hin. apply filter_In in Hin as [Hin1 Hin2].
      repeat split; try assumption.
      intros g Hg Jg. apply Hmax. rewrite <- E. apply filter_In. now split.
Qed.

Lemma get_latest_access_token_newest_witness :
  SSOTokenManager.get_latest_access_token (Some sample_cache) = Returned (lit "new") /\
  exists f,
    In f sample_cache /\ SSOTokenManager.is_json f = true /\
    (forall g, In g sample_cache -> SSOTokenManager.is_json g = true ->
               (SSOTokenManager.st_mtime g <= SSOTokenManager.st_mtime f)%N) /\
    SSOTokenManager.get_latest_access_token (Some sample_cache)
    = SSOTokenManager.accessToken f.
Proof.
  split; [reflexivity|].
  apply (proj2 (proj2 (get_latest_access_token_newest sample_cache))
           {| SSOTokenManager.suffix := lit ".json";
              SSOTokenManager.st_mtime := 100;
              SSOTokenManager.accessToken := Returned (lit "old") |}).
  - right. now left.
  - reflexivity.
Defined.

(** ** Listing the roles *)

Lemma fold_roles_raised (dir : sso_directory) (accounts : list str) (e : error) :
  fold_left
    (fun acc account =>
       available_roles <~ acc ;;
       roles <~ list_account_roles dir account ;;
       Returned (available_roles ++ map (fun role => (account, role)) roles))
    accounts (Raised e) = Raised e.
Proof. induction accounts as [|a accounts IH]; [reflexivity|exact IH]. Qed.

Lemma fold_roles_returned (dir : sso_directory) (roles : str -> list str)
  (accounts : list str) :
  (forall a, In a accounts -> list_account_roles dir a = Returned (roles a)) ->
  forall acc,
    fold_left
      (fun acc account =>
         available_roles <~ acc ;;
         roles <~ list_account_roles dir account ;;
         Returned (available_roles ++ map (fun role => (account, role)) roles))
      accounts (Returned acc)
    = Returned (acc ++ flat_map (fun a => map (fun r => (a, r)) (roles a)) accounts).
Proof.
  induction accounts as [|a accounts IH]; intros H acc; cbn [fold_left flat_map].
  - now rewrite app_nil_r.
  - cbn [obind]. rewrite (H a) by now left. cbn [obind].
    rewrite IH by (intros x Hx; apply H; now right).
    now rewrite <- app_assoc.
Qed.

Lemma fold_roles_failed (dir : sso_directory) (accounts : list str) (a : str) (e : error) :
  In a accounts -> list_account_roles dir a = Raised e ->
  forall acc,
    exists e',
      fold_left
        (fun acc account =>
           available_roles <~ acc ;;
           roles <~ list_account_roles dir account ;;
           Returned (available_roles ++ map (fun role => (account, role)) roles))
        accounts acc = Raised e'.
Proof.
  intros Hin Hfail. induction accounts as [|b accounts IH]; [easy|]. intros acc.
  cbn [fold_left]. destruct acc as [l|e0]; cbn [obind].
  - destruct Hin as [->|Hin].
    + rewrite Hfail. cbn [obind]. exists e. apply fold_roles_raised.
    + now apply IH.
  - exists e0. apply fold_roles_raised.
Qed.

(** X11: [get_available_roles] is all or nothing.  When every account's
    roles can be listed it returns the (account, role) pairs account by
    account, in the order of the account list and of each role list; when
    listing the roles of any one account raises, the whole call raises and
    no partial list is returned. *)
Theorem get_available_roles_all_or_nothing
  (dir : sso_directory) (token : str) (client : unit) (accounts : list str) :
  cached_token dir = Returned token -> sso_client dir = Returned client ->
  list_accounts dir = Returned accounts ->
  (forall roles : str -> list str,
      (forall a, In a accounts -> list_account_roles dir a = Returned (roles a)) ->
      get_available_roles dir
      = Returned (flat_map (fun a => map (fun r => (a, r)) (roles a)) accounts)) /\
  (forall a e,
      In a accounts -> list_account_roles dir a = Raised e ->
      exists e', get_available_roles dir = Raised e').
Proof.
  intros Ht Hc Ha. unfold get_available_roles. rewrite Ht, Hc, Ha. cbn [obind].
  split.
  - intros roles H. now rewrite (fold_roles_returned dir roles accounts H []).
  - intros a e Hin Hfail. now apply (fold_roles_failed dir accounts a e).
Qed.

Lemma get_available_roles_all_or_nothing_witness :
  cached_token sample_directory = Returned (lit "token") /\
  sso_client sample_directory = Returned tt /\
  list_accounts sample_directory = Returned [lit "111111111111"; lit "222222222222"] /\
  In (lit "222222222222") [lit "111111111111"; lit "222222222222"] /\
  list_account_roles sample_directory (lit "222222222222") = Raised KeyError /\
  exists e', get_available_roles sample_directory = Raised e'.
Proof.
  assert (Hin : In (lit "222222222222") [lit "111111111111"; lit "222222222222"])
    by (right; now left).
  exact (conj eq_refl (conj eq_refl (conj eq_refl (conj Hin (conj eq_refl
    (proj2 (get_available_roles_all_or_nothing sample_directory (lit "token") tt _
              eq_refl eq_refl eq_refl) _ KeyError Hin eq_refl)))))).
Defined.

(** ** Checking the credentials *)



(** ** The user part of an ARN *)

Lemma split_no_sep (sep : char) (s : str) :
  forall x, In x (split sep s) -> ~ In sep x.
Proof.
  induction s as [|c s IH]; cbn [split].
  - intros x [<-|[]]. easy.
  - destruct (N.eqb c sep) eqn:E.
    + intros x [<-|H]; [easy|now apply IH].
    + pose proof (split_not_nil sep s) as Hne.
      destruct (split sep s) as [|w ws]; [easy|].
      intros x [<-|H].
      * intros [Hc|Hw]; [apply N.eqb_neq in E; congruence|].
        apply (IH w); [now left|exact Hw].
      * apply IH. now right.
Qed.

Lemma join_cons_cons (sep : str) (c : char) (w : str) (ws : list str) :
  join sep ((c :: w) :: ws) = c :: join sep (w :: ws).
Proof. destruct ws; reflexivity. Qed.

(** Joining the pieces of a split gives the text back. *)
Lemma join_split (sep : char) (s : str) : join [sep] (split sep s) = s.
Proof.
  induction s as [|c s IH]; [reflexivity|]. cbn [split].
  pose proof (split_not_nil sep s) as Hne.
  destruct (N.eqb c sep) eqn:E.
  - apply N.eqb_eq in E. subst c.
    destruct (split sep s) as [|w ws]; [easy|].
    cbn [join app] in *. now rewrite IH.
  - destruct (split sep s) as [|w ws]; [easy|].
    rewrite join_cons_cons. now rewrite IH.
Qed.

Lemma join_snoc (sep : char) (xs : list str) (u : str) :
  join [sep] (xs ++ [u]) = flat_map (fun x => x ++ [sep]) xs ++ u.
Proof.
  induction xs as [|x xs IH]; [reflexivity|].
  cbn [app flat_map]. destruct (xs ++ [u]) as [|y ys] eqn:E.
  - now destruct xs.
  - change (join [sep] (x :: y :: ys)) with (x ++ [sep] ++ join [sep] (y :: ys)).
    rewrite IH. now rewrite <- !app_assoc.
Qed.

(** X13: the user shown by [verify_credentials] is the part of the ARN after
    its last ['/'] (the whole ARN when it has none, the empty text when it
    ends in ['/']); taking it never raises. *)
Theorem arn_user_is_last_component (arn : str) :
  exists pre u,
    arn_user arn = Ok u /\ arn = pre ++ u /\ ~ In ch_slash u /\
    (pre = [] \/ endswith [ch_slash] pre = true).
Proof.
  unfold arn_user.
  pose proof (join_split ch_slash arn) as Hj.
  pose proof (split_no_sep ch_slash arn) as Hs.
  pose proof (split_not_nil ch_slash arn) as Hne.
  rewrite <- (rev_involutive (split ch_slash arn)) in Hj, Hs.
  destruct (rev (split ch_slash arn)) as [|u xs] eqn:E.
  - apply (f_equal (@rev str)) in E. rewrite rev_involutive in E. easy.
  - cbn [rev] in Hj, Hs. rewrite join_snoc in Hj.
    exists (flat_map (fun x => x ++ [ch_slash]) (rev xs)), u.
    repeat split.
    + now symmetry.
    + apply Hs, in_or_app. right. now left.
    + destruct xs as [|y ys]; [now left|right].
      cbn [rev]. rewrite flat_map_app. cbn [flat_map].
      rewrite app_nil_r, app_assoc. apply endswith_app.
Qed.

(** ** Clearing the process environment *)

Lemma environ_del_absent (var : str) (environ : list (str * str)) :
  assoc_get var environ = None -> environ_del var environ = environ.
Proof.
  unfold environ_del. induction environ as [|[k v] environ IH]; [reflexivity|].
  cbn [assoc_get filter fst]. destruct (str_eqb var k); [discriminate|].
  intros H. cbn [negb]. now rewrite IH.
Qed.

Lemma assoc_get_environ_del (k var : str) (environ : list (str * str)) :
  assoc_get k (environ_del var environ)
  = if str_eqb var k then None else assoc_get k environ.
Proof.
  unfold environ_del. induction environ as [|[k0 v0] environ IH]; cbn [filter assoc_get fst].
  - now destruct (str_eqb var k).
  - destruct (str_eqb var k0) eqn:E0; cbn [negb].
    + rewrite IH. apply str_eqb_eq in E0. subst k0.
      destruct (str_eqb var k) eqn:E; [reflexivity|].
      destruct (str_eqb k var) eqn:E'; [|reflexivity].
      apply str_eqb_eq in E'. subst. now rewrite str_eqb_refl in E.
    + cbn [assoc_get]. rewrite IH.
      destruct (str_eqb k k0) eqn:E; [|reflexivity].
      apply str_eqb_eq in E. subst k0. now rewrite E0.
Qed.

Lemma clear_step_fst (vars : list str) :
  forall environ cleared,
    fst (fold_left
           (fun acc var =>
              match assoc_get var (fst acc) with
              | Some _ => (environ_del var (fst acc), snd acc ++ [var])
              | None => acc
              end) vars (environ, cleared))
    = fold_left (fun e var => environ_del var e) vars environ.
Proof.
  induction vars as [|v vars IH]; intros environ cleared; [reflexivity|].
  cbn [fold_left fst snd]. destruct (assoc_get v environ) eqn:E.
  - apply IH.
  - rewrite (environ_del_absent _ _ E). apply IH.
Qed.

Lemma fold_environ_del_get (vars : list str) (k : str) :
  forall environ,
    assoc_get k (fold_left (fun e var => environ_del var e) vars environ)
    = if existsb (fun var => str_eqb var k) vars then None else assoc_get k environ.
Proof.
  induction vars as [|v vars IH]; intros environ; [reflexivity|].
  cbn [fold_left existsb]. rewrite IH, assoc_get_environ_del.
  destruct (str_eqb v k); cbn [orb]; [now destruct (existsb _ vars)|reflexivity].
Qed.

Lemma filter_filter {A : Type} (p q : A -> bool) (l : list A) :
  filter p (filter q l) = filter (fun x => q x && p x) l.
Proof.
  induction l as [|x l IH]; [reflexivity|]. cbn [filter].
  destruct (q x); cbn [andb filter]; [destruct (p x)|]; now rewrite IH.
Qed.

Lemma fold_environ_del_filter (vars : list str) :
  forall environ,
    fold_left (fun e var => environ_del var e) vars environ
    = filter (fun kv => negb (existsb (fun var => str_eqb var (fst kv)) vars)) environ.
Proof.
  induction vars as [|v vars IH]; intros environ; cbn [fold_left existsb].
  - induction environ as [|kv environ IHe]; simpl in *; [reflexivity|].
    now rewrite <- IHe.
  - rewrite IH. unfold environ_del. rewrite filter_filter.
    apply filter_ext. intros kv. now rewrite negb_orb.
Qed.

Lemma clear_step_absent (vars : list str) (environ : list (str * str)) (cleared : list str) :
  (forall v, In v vars -> assoc_get v environ = None) ->
  fold_left
    (fun acc var =>
       match assoc_get var (fst acc) with
       | Some _ => (environ_del var (fst acc), snd acc ++ [var])
       | None => acc
       end) vars (environ, cleared)
  = (environ, cleared).
Proof.
  induction vars as [|v vars IH]; intros H; [reflexivity|].
  cbn [fold_left fst]. rewrite (H v) by now left.
  apply IH. intros x Hx. apply H. now right.
Qed.

Lemma clear_step_snd (vars : list str) :
  NoDup vars ->
  forall environ cleared,
    snd (fold_left
           (fun acc var =>
              match assoc_get var (fst acc) with
              | Some _ => (environ_del var (fst acc), snd acc ++ [var])
              | None => acc
              end) vars (environ, cleared))
    = cleared
      ++ filter (fun var => match assoc_get var environ with
                            | Some _ => true
                            | None => false
                            end) vars.
Proof.
  induction vars as [|v vars IH]; intros Hnd environ cleared.
  - cbn. now rewrite app_nil_r.
  - inversion Hnd as [|? ? Hv Hnd']. subst.
    cbn [fold_left fst snd filter]. destruct (assoc_get v environ) eqn:E.
    + rewrite (IH Hnd'), <- app_assoc. cbn [app]. do 2 f_equal.
      apply filter_ext_in. intros x Hx. rewrite assoc_get_environ_del.
      destruct (str_eqb v x) eqn:Ex; [|reflexivity].
      apply str_eqb_eq in Ex. now subst.
    + now rewrite (IH Hnd').
Qed.

Lemma aws_env_vars_NoDup : NoDup aws_env_vars.
Proof.
  repeat (constructor; [vm_compute; intuition discriminate|]). constructor.
Qed.

Lemma existsb_str_eqb_In (k : str) (vars : list str) :
  existsb (fun var => str_eqb var k) vars = true <-> In k vars.
Proof.
  rewrite existsb_exists. split.
  - intros (x & Hx & E). apply str_eqb_eq in E. now subst.
  - intros H. exists k. split; [exact H|apply str_eqb_refl].
Qed.

(** X14: after the clearing loop of [detect_and_clear_shell_variables] none
    of the four AWS variables is set, every other variable keeps its value
    and its place, the names reported are exactly those of the four that
    were set (in the order of the list), and clearing again removes and
    reports nothing. *)
Theorem clear_python_environment_spec (environ : list (str * str)) :
  let environ' := fst (clear_python_environment environ) in
  let cleared := snd (clear_python_environment environ) in
  (forall v, In v aws_env_vars -> assoc_get v environ' = None) /\
  (forall k, ~ In k aws_env_vars -> assoc_get k environ' = assoc_get k environ) /\
  environ'
  = filter (fun kv => negb (existsb (fun var => str_eqb var (fst kv)) aws_env_vars))
      environ /\
  cleared
  = filter (fun var => match assoc_get var environ with
                       | Some _ => true
                       | None => false
                       end) aws_env_vars /\
  clear_python_environment environ' = (environ', []).
Proof.
  cbv zeta. unfold clear_python_environment.
  rewrite clear_step_fst, (clear_step_snd aws_env_vars aws_env_vars_NoDup).
  assert (Hgone : forall v, In v aws_env_vars ->
                    assoc_get v (fold_left (fun e var => environ_del var e)
                                   aws_env_vars environ) = None).
  { intros v Hv. rewrite fold_environ_del_get.
    apply existsb_str_eqb_In in Hv. now rewrite Hv. }
  repeat split.
  - exact Hgone.
  - intros k Hk. rewrite fold_environ_del_get.
    destruct (existsb _ aws_env_vars) eqn:E; [|reflexivity].
    now apply existsb_str_eqb_In in E.
  - apply fold_environ_del_filter.
  - now apply clear_step_absent.
Qed.

(** ** The command line *)

Lemma split_no_occurrence (sep : char) (s : str) : ~ In sep s -> split sep s = [s].
Proof.
  induction s as [|c s IH]; [reflexivity|]. intros H. cbn [split].
  destruct (N.eqb c sep) eqn:E.
  - apply N.eqb_eq in E. subst. exfalso. apply H. now left.
  - rewrite IH; [reflexivity|]. intros Hin. apply H. now right.
Qed.






(** ** Tidy outputs *)

Lemma ends_blank_from_cons (prev : bool) (l : str) (rest : list str) :
  ends_blank_from prev (l :: rest) = ends_blank_from (is_blank l) rest.
Proof. destruct rest; reflexivity. Qed.

Lemma ends_blank_from_snoc (prev : bool) (ls : list str) (x : str) :
  ends_blank_from prev (ls ++ [x]) = is_blank x.
Proof.
  unfold ends_blank_from. rewrite last_last. now destruct ls.
Qed.

Lemma no_double_blank_snoc (ls : list str) (x : str) :
  forall prev,
    no_double_blank prev (ls ++ [x])
    = no_double_blank prev ls && negb (is_blank x && ends_blank_from prev ls).
Proof.
  induction ls as [|l ls IH]; intros prev.
  - cbn [app no_double_blank ends_blank_from].
    destruct (is_blank x), prev; reflexivity.
  - cbn [app no_double_blank]. rewrite ends_blank_from_cons, !IH.
    destruct (is_blank l); [|reflexivity].
    now rewrite andb_assoc.
Qed.

Lemma no_double_blank_app_solid (ls tail : list str) :
  forall prev,
    forallb (fun l => negb (is_blank l)) tail = true ->
    no_double_blank prev (ls ++ tail) = no_double_blank prev ls.
Proof.
  induction ls as [|l ls IH]; intros prev H.
  - cbn [app]. revert prev. induction tail as [|t tail IHt]; intros prev; [reflexivity|].
    cbn [forallb] in H. apply andb_true_iff in H as [Ht H].
    cbn [no_double_blank]. apply negb_true_iff in Ht. rewrite Ht.
    now rewrite IHt.
  - cbn [app no_double_blank]. now rewrite !IH.
Qed.

Lemma needs_blank_ends_blank (ls : list str) :
  needs_blank ls = true -> ends_blank ls = false.
Proof.
  unfold needs_blank, ends_blank, ends_blank_from. destruct ls; [discriminate|].
  now intros H%negb_true_iff.
Qed.

Lemma no_double_blank_with_spacing (ls : list str) :
  no_double_blank false (with_spacing ls) = no_double_blank false ls.
Proof.
  unfold with_spacing. destruct (needs_blank ls) eqn:E; [|reflexivity].
  rewrite no_double_blank_snoc. fold (ends_blank ls).
  rewrite (needs_blank_ends_blank _ E). now rewrite andb_false_r, andb_true_r.
Qed.

Lemma export_not_blank (dp : str) : is_blank (Bash.aws_export dp) = false.
Proof.
  rewrite is_blank_forallb. unfold Bash.aws_export. now rewrite forallb_app.
Qed.

Lemma alias_not_blank : is_blank Bash.clear_aws_alias = false.
Proof. reflexivity. Qed.

Lemma export_line_not_blank (l : str) : Bash.is_export l = true -> is_blank l = false.
Proof.
  intros H. destruct (is_blank l) eqn:E; [|reflexivity].
  now rewrite (blank_not_export _ E) in H.
Qed.

(** Whether the loop saw an export line. *)
Lemma bash_pass_added (dp : str) (lines : list str) :
  Bash.aws_profile_added (Bash.pass dp lines)
  = (1 <=? count_lines Bash.is_export lines).
Proof.
  induction lines as [|l lines IH] using rev_ind; [reflexivity|].
  rewrite bash_pass_snoc, count_lines_app, count_lines_one. unfold Bash.step.
  destruct (is_blank l) eqn:Hb.
  - cbn [Bash.aws_profile_added]. rewrite IH, (blank_not_export _ Hb).
    now rewrite Nat.add_0_r.
  - destruct (Bash.is_export l) eqn:He.
    + destruct (Bash.aws_profile_added (Bash.pass dp lines)) eqn:Ha;
        cbn [negb Bash.aws_profile_added].
      * symmetry. apply Nat.leb_le. lia.
      * symmetry. apply Nat.leb_le. lia.
    + cbn [Bash.aws_profile_added]. rewrite IH. now rewrite Nat.add_0_r.
Qed.

(** When at most one line matches, the loop drops nothing but surplus blank
    lines, so its output has no two blank lines in a row. *)
Lemma bash_pass_tidy (dp : str) (lines : list str) :
  count_lines Bash.is_export lines <= 1 ->
  no_double_blank false (Bash.new_lines (Bash.pass dp lines)) = true /\
  ends_blank (Bash.new_lines (Bash.pass dp lines))
  = (1 <=? Bash.blank_line_count (Bash.pass dp lines)).
Proof.
  induction lines as [|l lines IH] using rev_ind; [now split|].
  rewrite count_lines_app, count_lines_one. intros Hc.
  destruct IH as [IH1 IH2]; [lia|].
  rewrite bash_pass_snoc. unfold Bash.step.
  destruct (is_blank l) eqn:Hb.
  - rewrite Nat.add_1_r. cbn [Bash.new_lines Bash.blank_line_count].
    destruct (Bash.blank_line_count (Bash.pass dp lines)) as [|n] eqn:En.
    + cbn [Nat.leb]. unfold ends_blank in *.
      rewrite no_double_blank_snoc, ends_blank_from_snoc, IH1, IH2, Hb.
      now split.
    + cbn [Nat.leb]. now split.
  - destruct (Bash.is_export l) eqn:He.
    + assert (Ha : Bash.aws_profile_added (Bash.pass dp lines) = false).
      { rewrite bash_pass_added. apply Nat.leb_gt. lia. }
      rewrite Ha. cbn [negb Bash.new_lines Bash.blank_line_count].
      unfold ends_blank in *.
      rewrite no_double_blank_snoc, ends_blank_from_snoc, IH1, export_not_blank.
      now split.
    + cbn [Bash.new_lines Bash.blank_line_count]. unfold ends_blank in *.
      rewrite no_double_blank_snoc, ends_blank_from_snoc, IH1, Hb.
      now split.
Qed.

Lemma bash_merge_tidy (dp : str) (lines : list str) :
  count_lines Bash.is_export lines <= 1 ->
  no_double_blank false (Bash.merge dp lines) = true.
Proof.
  intros Hc. destruct (bash_pass_tidy dp lines Hc) as [H1 _].
  unfold Bash.merge, Bash.add_alias, Bash.add_export.
  assert (Hstage : no_double_blank false
                     (if negb (Bash.aws_profile_added (Bash.pass dp lines))
                      then with_spacing (Bash.new_lines (Bash.pass dp lines))
                             ++ [Bash.aws_export dp]
                      else Bash.new_lines (Bash.pass dp lines)) = true).
  { destruct (negb _); [|exact H1].
    rewrite no_double_blank_app_solid, no_double_blank_with_spacing; [exact H1|].
    cbn [forallb]. now rewrite export_not_blank. }
  destruct (negb (contains _ _)); [|exact Hstage].
  now rewrite no_double_blank_app_solid.
Qed.

(** On a tidy input whose only export line is the canonical one, the loop
    copies every line. *)
Lemma bash_fold_stable (dp : str) (lines : list str) :
  forall st,
    no_double_blank (1 <=? Bash.blank_line_count st) lines = true ->
    (forall l, In l lines -> Bash.is_export l = true -> l = Bash.aws_export dp) ->
    count_lines Bash.is_export lines <= 1 ->
    (Bash.aws_profile_added st = true -> count_lines Bash.is_export lines = 0) ->
    Bash.new_lines (fold_left (Bash.step dp) lines st) = Bash.new_lines st ++ lines /\
    Bash.aws_profile_added (fold_left (Bash.step dp) lines st)
    = Bash.aws_profile_added st || (1 <=? count_lines Bash.is_export lines).
Proof.
  induction lines as [|l lines IH]; intros st Hndb Hcan Hc Ha.
  - cbn [fold_left]. now rewrite app_nil_r, orb_false_r.
  - cbn [fold_left no_double_blank] in *.
    change (l :: lines) with ([l] ++ lines) in Hc, Ha |- *.
    rewrite count_lines_app, count_lines_one in Hc, Ha |- *.
    unfold Bash.step at 2 4. destruct (is_blank l) eqn:Hb.
    + apply andb_true_iff in Hndb as [Hprev Hndb].
      apply negb_true_iff, Nat.leb_gt in Hprev.
      assert (E0 : Bash.blank_line_count st = 0) by lia.
      rewrite (blank_not_export _ Hb) in *. rewrite E0. cbn [Nat.add Nat.leb].
      destruct (IH {| Bash.new_lines := Bash.new_lines st ++ [l];
                      Bash.aws_profile_added := Bash.aws_profile_added st;
                      Bash.blank_line_count := 1 |}) as [I1 I2]; try assumption.
      { intros x Hx. apply Hcan. now right. }
      rewrite I1, I2. cbn [Bash.new_lines Bash.aws_profile_added].
      now rewrite <- app_assoc.
    + destruct (Bash.is_export l) eqn:He.
      * assert (Hst : Bash.aws_profile_added st = false).
        { destruct (Bash.aws_profile_added st); [|reflexivity].
          specialize (Ha eq_refl). lia. }
        rewrite Hst. cbn [negb].
        rewrite <- (Hcan l (or_introl eq_refl) He).
        destruct (IH {| Bash.new_lines := Bash.new_lines st ++ [l];
                        Bash.aws_profile_added := true;
                        Bash.blank_line_count := 0 |}) as [I1 I2];
          try assumption.
        { intros x Hx. apply Hcan. now right. }
        { lia. }
        { intros _. lia. }
        rewrite I1, I2. cbn [Bash.new_lines Bash.aws_profile_added orb].
        split; [now rewrite <- app_assoc|reflexivity].
      * destruct (IH {| Bash.new_lines := Bash.new_lines st ++ [l];
                        Bash.aws_profile_added := Bash.aws_profile_added st;
                        Bash.blank_line_count := 0 |}) as [I1 I2];
          try assumption.
        { intros x Hx. apply Hcan. now right. }
        rewrite I1, I2. cbn [Bash.new_lines Bash.aws_profile_added].
        now rewrite <- app_assoc.
Qed.

(** A tidy file that already holds the canonical export line, and no other,
    and the alias, is a fixed point of the merge. *)
Lemma bash_merge_fixed (dp : str) (lines : list str) :
  no_double_blank false lines = true ->
  (forall l, In l lines -> Bash.is_export l = true -> l = Bash.aws_export dp) ->
  count_lines Bash.is_export lines = 1 ->
  contains Bash.clear_aws_alias (join [ch_newline] lines) = true ->
  Bash.merge dp lines = lines.
Proof.
  intros Hndb Hcan Hc Hal.
  destruct (bash_fold_stable dp lines Bash.init Hndb Hcan) as [H1 H2];
    [lia|discriminate|].
  unfold Bash.merge, Bash.add_export, Bash.pass.
  rewrite H1, H2, Hc. cbn [Bash.init Bash.new_lines Bash.aws_profile_added
                             orb Nat.leb negb app].
  unfold Bash.add_alias. now rewrite Hal.
Qed.

(** ** From lines back to file contents *)

Lemma split_join (sep : char) (ls : list str) :
  ls <> [] -> (forall l, In l ls -> ~ In sep l) ->
  split sep (join [sep] ls) = ls.
Proof.
  induction ls as [|x ls IH]; [easy|]. intros _ H.
  destruct ls as [|y ls].
  - cbn [join]. apply split_no_occurrence, H. now left.
  - change (join [sep] (x :: y :: ls)) with (x ++ sep :: join [sep] (y :: ls)).
    rewrite split_app_sep by (apply H; now left).
    rewrite IH; [reflexivity|discriminate|].
    intros l Hl. apply H. now right.
Qed.

Lemma join_not_nil (sep l : str) (ls : list str) :
  In l ls -> l <> [] -> join sep ls <> [].
Proof.
  intros Hin Hl. destruct (join_in sep l ls Hin) as (a & b & ->).
  intros E. apply app_eq_nil in E as [_ E]. apply app_eq_nil in E as [E _]. easy.
Qed.

Lemma lines_of_join (l : str) (ls : list str) :
  In l ls -> l <> [] -> (forall x, In x ls -> single_line x) ->
  lines_of (join [ch_newline] ls) = ls.
Proof.
  intros Hin Hl Hs. unfold lines_of.
  pose proof (join_not_nil [ch_newline] l ls Hin Hl) as Hne.
  destruct (join [ch_newline] ls) eqn:E; [easy|]. rewrite <- E.
  apply split_join; [now destruct ls|exact Hs].
Qed.

Lemma lines_of_single (content : str) :
  forall l, In l (lines_of content) -> single_line l.
Proof.
  unfold lines_of. destruct content as [|c content]; [easy|].
  apply split_no_sep.
Qed.

Lemma join_lines_of (content : str) : join [ch_newline] (lines_of content) = content.
Proof.
  unfold lines_of. destruct content as [|c content]; [reflexivity|].
  apply join_split.
Qed.

Lemma bash_pass_origin (dp : str) (lines : list str) :
  forall l, In l (Bash.new_lines (Bash.pass dp lines)) ->
            In l lines \/ l = Bash.aws_export dp.
Proof.
  induction lines as [|x lines IH] using rev_ind; [easy|].
  intros l. rewrite bash_pass_snoc.
  destruct (bash_step_cases dp (Bash.pass dp lines) x)
    as [(Hn & _) | [(Hn & _) | (Hn & _)]]; rewrite Hn, ?in_app_iff; cbn [In].
  - intros [H|[<-|[]]]; [destruct (IH l H); tauto|now right].
  - intros [H|[<-|[]]]; [destruct (IH l H); tauto|tauto].
  - intros H. destruct (IH l H); tauto.
Qed.

Lemma bash_merge_origin (dp : str) (lines : list str) :
  forall l, In l (Bash.merge dp lines) ->
            In l lines \/ l = Bash.aws_export dp \/ l = Bash.clear_aws_alias \/ l = [].
Proof.
  intros l. unfold Bash.merge, Bash.add_alias, Bash.add_export.
  assert (Hstage : In l (if negb (Bash.aws_profile_added (Bash.pass dp lines))
                         then with_spacing (Bash.new_lines (Bash.pass dp lines))
                                ++ [Bash.aws_export dp]
                         else Bash.new_lines (Bash.pass dp lines)) ->
                   In l lines \/ l = Bash.aws_export dp \/ l = []).
  { destruct (negb _).
    - rewrite in_app_iff. intros [H|[<-|[]]]; [|tauto].
      destruct (in_with_spacing _ _ H) as [->|H']; [tauto|].
      destruct (bash_pass_origin dp lines l H'); tauto.
    - intros H. destruct (bash_pass_origin dp lines l H); tauto. }
  destruct (negb (contains _ _)).
  - rewrite in_app_iff. intros [H|[<-|[]]]; [|tauto].
    destruct (Hstage H) as [?|[?|?]]; tauto.
  - intros H. destruct (Hstage H) as [?|[?|?]]; tauto.
Qed.

Lemma bash_merge_single_lines (lines : list str) :
  (forall l, In l lines -> single_line l) ->
  forall l, In l (Bash.merge default_profile lines) -> single_line l.
Proof.
  intros H l Hl.
  destruct (bash_merge_origin default_profile lines l Hl) as [Hin | [-> | [-> | ->]]].
  - now apply H.
  - unfold single_line. vm_compute. intuition discriminate.
  - apply alias_separator_free.
  - easy.
Qed.

Lemma bash_merge_has_alias (dp : str) (lines : list str) :
  contains Bash.clear_aws_alias (join [ch_newline] (Bash.merge dp lines)) = true.
Proof.
  unfold Bash.merge, Bash.add_alias.
  destruct (contains Bash.clear_aws_alias
              (join [ch_newline] (Bash.add_export dp (Bash.pass dp lines)))) eqn:E;
    cbn [negb]; [exact E|].
  apply (contains_join _ _ Bash.clear_aws_alias).
  - apply in_or_app. right. now left.
  - exact alias_has_alias.
Qed.

Lemma bash_rewrite_lines (content : str) :
  lines_of (Bash.rewrite default_profile content)
  = Bash.merge default_profile (lines_of content).
Proof.
  unfold Bash.rewrite.
  apply (lines_of_join (Bash.aws_export default_profile)).
  - apply bash_merge_export_lines.
  - discriminate.
  - apply bash_merge_single_lines, lines_of_single.
Qed.

Lemma bash_merge_twice (lines : list str) :
  count_lines Bash.is_export lines <= 1 ->
  Bash.merge default_profile (Bash.merge default_profile lines)
  = Bash.merge default_profile lines.
Proof.
  intros Hc. apply bash_merge_fixed.
  - now apply bash_merge_tidy.
  - apply bash_merge_export_lines.
  - apply bash_merge_count_export.
  - apply bash_merge_has_alias.
Qed.

(** X16: a [.bashrc] that already holds the canonical export line and no
    other export of the variable, the alias text, and no two blank lines in
    a row is written back exactly as it was read. *)
Theorem bash_rewrite_configured (content : str) :
  no_double_blank false (lines_of content) = true ->
  (forall l, In l (lines_of content) -> Bash.is_export l = true ->
             l = Bash.aws_export default_profile) ->
  count_lines Bash.is_export (lines_of content) = 1 ->
  contains Bash.clear_aws_alias content = true ->
  Bash.rewrite default_profile content = content.
Proof.
  intros Hndb Hcan Hc Hal. unfold Bash.rewrite.
  rewrite bash_merge_fixed; try assumption.
  - apply join_lines_of.
  - now rewrite join_lines_of.
Qed.

Lemma bash_rewrite_configured_witness :
  no_double_blank false (lines_of sample_configured_bashrc) = true /\
  (forall l, In l (lines_of sample_configured_bashrc) -> Bash.is_export l = true ->
             l = Bash.aws_export default_profile) /\
  count_lines Bash.is_export (lines_of sample_configured_bashrc) = 1 /\
  contains Bash.clear_aws_alias sample_configured_bashrc = true /\
  Bash.rewrite default_profile sample_configured_bashrc = sample_configured_bashrc.
Proof.
  assert (H1 : no_double_blank false (lines_of sample_configured_bashrc) = true)
    by (vm_compute; reflexivity).
  assert (H2 : forall l, In l (lines_of sample_configured_bashrc) ->
                         Bash.is_export l = true ->
                         l = Bash.aws_export default_profile).
  { assert (E : forallb (fun l => implb (Bash.is_export l)
                                    (str_eqb l (Bash.aws_export default_profile)))
                  (lines_of sample_configured_bashrc) = true)
      by (vm_compute; reflexivity).
    rewrite forallb_forall in E. intros l Hl He. specialize (E l Hl).
    rewrite He in E. now apply str_eqb_eq. }
  assert (H3 : count_lines Bash.is_export (lines_of sample_configured_bashrc) = 1)
    by (vm_compute; reflexivity).
  assert (H4 : contains Bash.clear_aws_alias sample_configured_bashrc = true)
    by (vm_compute; reflexivity).
  exact (conj H1 (conj H2 (conj H3 (conj H4
    (bash_rewrite_configured sample_configured_bashrc H1 H2 H3 H4))))).
Defined.

(** X17: when the [.bashrc] read has at most one line that matches the
    export predicate, running the POSIX adapter a second time writes exactly
    what the first run wrote. *)
Theorem bash_rewrite_idempotent (content : str) :
  count_lines Bash.is_export (lines_of content) <= 1 ->
  Bash.rewrite default_profile (Bash.rewrite default_profile content)
  = Bash.rewrite default_profile content.
Proof.
  intros Hc. unfold Bash.rewrite at 1.
  rewrite bash_rewrite_lines, (bash_merge_twice _ Hc). reflexivity.
Qed.

Lemma bash_rewrite_idempotent_witness :
  count_lines Bash.is_export (lines_of sample_bashrc) <= 1 /\
  Bash.rewrite default_profile (Bash.rewrite default_profile sample_bashrc)
  = Bash.rewrite default_profile sample_bashrc.
Proof.
  assert (H : count_lines Bash.is_export (lines_of sample_bashrc) <= 1)
    by (vm_compute; lia).
  exact (conj H (bash_rewrite_idempotent sample_bashrc H)).
Defined.

(** X18: for every [.bashrc], the POSIX adapter reaches a fixed point after
    at most two runs: a third run writes exactly what the second run
    wrote. *)
Theorem bash_rewrite_stabilises (content : str) :
  Bash.rewrite default_profile
    (Bash.rewrite default_profile (Bash.rewrite default_profile content))
  = Bash.rewrite default_profile (Bash.rewrite default_profile content).
Proof.
  set (once := Bash.rewrite default_profile content).
  unfold Bash.rewrite at 1. rewrite bash_rewrite_lines.
  rewrite bash_merge_twice; [reflexivity|].
  subst once. rewrite bash_rewrite_lines, bash_merge_count_export. lia.
Qed.

(** ** Tidy PowerShell profiles *)

Lemma env_not_blank (dp : str) : is_blank (PowerShell.aws_env dp) = false.
Proof.
  rewrite is_blank_forallb. unfold PowerShell.aws_env. now rewrite forallb_app.
Qed.

Lemma ps_function_line_spec (l : str) :
  ps_function_line l = true <->
  is_blank l = false /\ PowerShell.is_env l = false /\ PowerShell.is_function l = true.
Proof.
  unfold ps_function_line.
  destruct (is_blank l), (PowerShell.is_env l), (PowerShell.is_function l);
    cbn; intuition discriminate.
Qed.

(** Whether the loop saw an assignment line. *)
Lemma ps_pass_added (dp : str) (lines : list str) :
  PowerShell.aws_profile_added (PowerShell.pass dp lines)
  = (1 <=? count_lines PowerShell.is_env lines).
Proof.
  induction lines as [|l lines IH] using rev_ind; [reflexivity|].
  rewrite ps_pass_snoc, count_lines_app, count_lines_one. unfold PowerShell.step.
  destruct (is_blank l) eqn:Hb.
  - cbn [PowerShell.aws_profile_added]. rewrite IH, (blank_not_env _ Hb).
    now rewrite Nat.add_0_r.
  - destruct (PowerShell.is_env l) eqn:He.
    + destruct (PowerShell.aws_profile_added (PowerShell.pass dp lines)) eqn:Ha;
        cbn [negb PowerShell.aws_profile_added];
        symmetry; apply Nat.leb_le; lia.
    + destruct (PowerShell.is_function l);
        cbn [PowerShell.aws_profile_added]; rewrite IH; now rewrite Nat.add_0_r.
Qed.

(** Whether the loop saw a line that counts as the helper function. *)
Lemma ps_pass_clear (dp : str) (lines : list str) :
  PowerShell.clear_aws_added (PowerShell.pass dp lines)
  = existsb ps_function_line lines.
Proof.
  induction lines as [|l lines IH] using rev_ind; [reflexivity|].
  rewrite ps_pass_snoc, existsb_app. cbn [existsb]. rewrite orb_false_r.
  unfold PowerShell.step, ps_function_line.
  destruct (is_blank l) eqn:Hb.
  - cbn [PowerShell.clear_aws_added negb andb]. now rewrite IH, orb_false_r.
  - destruct (PowerShell.is_env l) eqn:He.
    + destruct (negb (PowerShell.aws_profile_added (PowerShell.pass dp lines)));
        cbn [PowerShell.clear_aws_added negb andb]; now rewrite IH, orb_false_r.
    + destruct (PowerShell.is_function l);
        cbn [PowerShell.clear_aws_added negb andb]; rewrite ?IH;
        [now rewrite orb_true_r|now rewrite orb_false_r].
Qed.

Lemma ps_new_lines_grow (dp : str) (st : PowerShell.state) (x l : str) :
  In l (PowerShell.new_lines st) ->
  In l (PowerShell.new_lines (PowerShell.step dp st x)).
Proof.
  intros H.
  destruct (ps_step_cases dp st x) as [(Hn & _) | [(Hn & _) | (Hn & _)]];
    rewrite Hn; [apply in_or_app; now left|apply in_or_app; now left|exact H].
Qed.

(** A line that counts as the helper function is always kept. *)
Lemma ps_pass_keeps_function_lines (dp : str) (lines : list str) :
  forall l, In l lines -> ps_function_line l = true ->
            In l (PowerShell.new_lines (PowerShell.pass dp lines)).
Proof.
  induction lines as [|x lines IH] using rev_ind; [easy|].
  intros l Hl Hf. rewrite ps_pass_snoc.
  apply in_app_or in Hl as [Hl|[<-|[]]].
  - apply ps_new_lines_grow. now apply IH.
  - apply ps_function_line_spec in Hf as (Hb & He & Hfn).
    unfold PowerShell.step. rewrite Hb, He, Hfn. cbn [PowerShell.new_lines].
    apply in_or_app. right. now left.
Qed.

Lemma ps_pass_tidy (dp : str) (lines : list str) :
  count_lines PowerShell.is_env lines <= 1 ->
  no_double_blank false (PowerShell.new_lines (PowerShell.pass dp lines)) = true /\
  ends_blank (PowerShell.new_lines (PowerShell.pass dp lines))
  = (1 <=? PowerShell.blank_line_count (PowerShell.pass dp lines)).
Proof.
  induction lines as [|l lines IH] using rev_ind; [now split|].
  rewrite count_lines_app, count_lines_one. intros Hc.
  destruct IH as [IH1 IH2]; [lia|].
  rewrite ps_pass_snoc. unfold PowerShell.step.
  destruct (is_blank l) eqn:Hb.
  - rewrite Nat.add_1_r. cbn [PowerShell.new_lines PowerShell.blank_line_count].
    destruct (PowerShell.blank_line_count (PowerShell.pass dp lines)) as [|n] eqn:En.
    + cbn [Nat.leb]. unfold ends_blank in *.
      rewrite no_double_blank_snoc, ends_blank_from_snoc, IH1, IH2, Hb.
      now split.
    + cbn [Nat.leb]. now split.
  - destruct (PowerShell.is_env l) eqn:He.
    + assert (Ha : PowerShell.aws_profile_added (PowerShell.pass dp lines) = false).
      { rewrite ps_pass_added. apply Nat.leb_gt. lia. }
      rewrite Ha. cbn [negb PowerShell.new_lines PowerShell.blank_line_count].
      unfold ends_blank in *.
      rewrite no_double_blank_snoc, ends_blank_from_snoc, IH1, env_not_blank.
      now split.
    + destruct (PowerShell.is_function l);
        cbn [PowerShell.new_lines PowerShell.blank_line_count];
        unfold ends_blank in *;
        rewrite no_double_blank_snoc, ends_blank_from_snoc, IH1, Hb;
        now split.
Qed.

Lemma ps_add_env_tidy (dp : str) (lines : list str) :
  count_lines PowerShell.is_env lines <= 1 ->
  no_double_blank false (PowerShell.add_env dp (PowerShell.pass dp lines)) = true.
Proof.
  intros Hc. destruct (ps_pass_tidy dp lines Hc) as [H1 _].
  unfold PowerShell.add_env. destruct (negb _); [|exact H1].
  rewrite no_double_blank_app_solid, no_double_blank_with_spacing; [exact H1|].
  cbn [forallb]. now rewrite env_not_blank.
Qed.

(** On a tidy input whose only assignment line is the canonical one, the loop
    copies every line. *)
Lemma ps_fold_stable (dp : str) (lines : list str) :
  forall st,
    no_double_blank (1 <=? PowerShell.blank_line_count st) lines = true ->
    (forall l, In l lines -> PowerShell.is_env l = true -> l = PowerShell.aws_env dp) ->
    count_lines PowerShell.is_env lines <= 1 ->
    (PowerShell.aws_profile_added st = true ->
     count_lines PowerShell.is_env lines = 0) ->
    PowerShell.new_lines (fold_left (PowerShell.step dp) lines st)
    = PowerShell.new_lines st ++ lines /\
    PowerShell.aws_profile_added (fold_left (PowerShell.step dp) lines st)
    = PowerShell.aws_profile_added st || (1 <=? count_lines PowerShell.is_env lines).
Proof.
  induction lines as [|l lines IH]; intros st Hndb Hcan Hc Ha.
  - cbn [fold_left]. now rewrite app_nil_r, orb_false_r.
  - cbn [fold_left no_double_blank] in *.
    change (l :: lines) with ([l] ++ lines) in Hc, Ha |- *.
    rewrite count_lines_app, count_lines_one in Hc, Ha |- *.
    unfold PowerShell.step at 2 4. destruct (is_blank l) eqn:Hb.
    + apply andb_true_iff in Hndb as [Hprev Hndb].
      apply negb_true_iff, Nat.leb_gt in Hprev.
      assert (E0 : PowerShell.blank_line_count st = 0) by lia.
      rewrite (blank_not_env _ Hb) in *. rewrite E0. cbn [Nat.add Nat.leb].
      destruct (IH {| PowerShell.new_lines := PowerShell.new_lines st ++ [l];
                      PowerShell.aws_profile_added := PowerShell.aws_profile_added st;
                      PowerShell.clear_aws_added := PowerShell.clear_aws_added st;
                      PowerShell.blank_line_count := 1 |}) as [I1 I2]; try assumption.
      { intros x Hx. apply Hcan. now right. }
      rewrite I1, I2. cbn [PowerShell.new_lines PowerShell.aws_profile_added].
      now rewrite <- app_assoc.
    + destruct (PowerShell.is_env l) eqn:He.
      * assert (Hst : PowerShell.aws_profile_added st = false).
        { destruct (PowerShell.aws_profile_added st); [|reflexivity].
          specialize (Ha eq_refl). lia. }
        rewrite Hst. cbn [negb].
        rewrite <- (Hcan l (or_introl eq_refl) He).
        destruct (IH {| PowerShell.new_lines := PowerShell.new_lines st ++ [l];
                        PowerShell.aws_profile_added := true;
                        PowerShell.clear_aws_added := PowerShell.clear_aws_added st;
                        PowerShell.blank_line_count := 0 |}) as [I1 I2];
          try assumption.
        { intros x Hx. apply Hcan. now right. }
        { lia. }
        { intros _. lia. }
        rewrite I1, I2. cbn [PowerShell.new_lines PowerShell.aws_profile_added orb].
        split; [now rewrite <- app_assoc|reflexivity].
      * destruct (PowerShell.is_function l).
        -- destruct (IH {| PowerShell.new_lines := PowerShell.new_lines st ++ [l];
                           PowerShell.aws_profile_added := PowerShell.aws_profile_added st;
                           PowerShell.clear_aws_added := true;
                           PowerShell.blank_line_count := 0 |}) as [I1 I2];
             try assumption.
           { intros x Hx. apply Hcan. now right. }
           rewrite I1, I2. cbn [PowerShell.new_lines PowerShell.aws_profile_added].
           now rewrite <- app_assoc.
        -- destruct (IH {| PowerShell.new_lines := PowerShell.new_lines st ++ [l];
                           PowerShell.aws_profile_added := PowerShell.aws_profile_added st;
                           PowerShell.clear_aws_added := PowerShell.clear_aws_added st;
                           PowerShell.blank_line_count := 0 |}) as [I1 I2];
             try assumption.
           { intros x Hx. apply Hcan. now right. }
           rewrite I1, I2. cbn [PowerShell.new_lines PowerShell.aws_profile_added].
           now rewrite <- app_assoc.
Qed.

(** A tidy profile that already holds the canonical assignment, and no other
    line mentioning the variable, and a helper function line is a fixed point
    of the merge. *)
Lemma ps_merge_fixed (dp : str) (lines : list str) :
  no_double_blank false lines = true ->
  (forall l, In l lines -> PowerShell.is_env l = true -> l = PowerShell.aws_env dp) ->
  count_lines PowerShell.is_env lines = 1 ->
  existsb ps_function_line lines = true ->
  PowerShell.merge dp lines = lines.
Proof.
  intros Hndb Hcan Hc Hf.
  destruct (ps_fold_stable dp lines PowerShell.init Hndb Hcan) as [H1 H2];
    [lia|discriminate|].
  unfold PowerShell.merge, PowerShell.add_env.
  rewrite ps_pass_clear, Hf. unfold PowerShell.pass.
  rewrite H1, H2, Hc. reflexivity.
Qed.

(** ** The PowerShell adapter run again *)

Lemma clear_aws_function_lines :
  split ch_newline PowerShell.clear_aws_function
  = [ nth 0 clear_aws_block_without_assignment [];
      nth 1 clear_aws_block_without_assignment [];
      lit "    $env:AWS_DEFAULT_PROFILE = 'default'";
      nth 2 clear_aws_block_without_assignment [];
      nth 3 clear_aws_block_without_assignment [] ].
Proof. vm_compute. reflexivity. Qed.

Lemma ps_step_keep (dp : str) (st : PowerShell.state) (l : str) :
  is_blank l = false -> PowerShell.is_env l = false ->
  PowerShell.new_lines (PowerShell.step dp st l) = PowerShell.new_lines st ++ [l] /\
  PowerShell.aws_profile_added (PowerShell.step dp st l)
  = PowerShell.aws_profile_added st /\
  PowerShell.clear_aws_added (PowerShell.step dp st l)
  = PowerShell.clear_aws_added st || PowerShell.is_function l.
Proof.
  intros Hb He. unfold PowerShell.step. rewrite Hb, He.
  destruct (PowerShell.is_function l);
    cbn [PowerShell.new_lines PowerShell.aws_profile_added PowerShell.clear_aws_added];
    repeat split; [now rewrite orb_true_r|now rewrite orb_false_r].
Qed.

Lemma ps_step_drop (dp : str) (st : PowerShell.state) (l : str) :
  is_blank l = false -> PowerShell.is_env l = true ->
  PowerShell.aws_profile_added st = true ->
  PowerShell.new_lines (PowerShell.step dp st l) = PowerShell.new_lines st /\
  PowerShell.aws_profile_added (PowerShell.step dp st l) = true /\
  PowerShell.clear_aws_added (PowerShell.step dp st l) = PowerShell.clear_aws_added st.
Proof.
  intros Hb He Ha. unfold PowerShell.step. rewrite Hb, He, Ha.
  cbn [negb PowerShell.new_lines PowerShell.aws_profile_added PowerShell.clear_aws_added].
  now repeat split.
Qed.

(** What the loop does to the helper block once the assignment has been
    seen: the block's own assignment line is dropped. *)
Lemma ps_fold_block (dp : str) (st : PowerShell.state) :
  PowerShell.aws_profile_added st = true ->
  let st' := fold_left (PowerShell.step dp)
               (split ch_newline PowerShell.clear_aws_function) st in
  PowerShell.new_lines st'
  = PowerShell.new_lines st ++ clear_aws_block_without_assignment /\
  PowerShell.aws_profile_added st' = true /\
  PowerShell.clear_aws_added st' = true.
Proof.
  intros Ha. cbv zeta. rewrite clear_aws_function_lines. cbn [fold_left].
  set (l1 := nth 0 clear_aws_block_without_assignment []).
  set (l2 := nth 1 clear_aws_block_without_assignment []).
  set (l3 := lit "    $env:AWS_DEFAULT_PROFILE = 'default'").
  set (l4 := nth 2 clear_aws_block_without_assignment []).
  set (l5 := nth 3 clear_aws_block_without_assignment []).
  destruct (ps_step_keep dp st l1 eq_refl eq_refl) as (N1 & A1 & C1).
  set (s1 := PowerShell.step dp st l1) in *.
  destruct (ps_step_keep dp s1 l2 eq_refl eq_refl) as (N2 & A2 & C2).
  set (s2 := PowerShell.step dp s1 l2) in *.
  destruct (ps_step_drop dp s2 l3 eq_refl eq_refl) as (N3 & A3 & C3).
  { now rewrite A2, A1. }
  set (s3 := PowerShell.step dp s2 l3) in *.
  destruct (ps_step_keep dp s3 l4 eq_refl eq_refl) as (N4 & A4 & C4).
  set (s4 := PowerShell.step dp s3 l4) in *.
  destruct (ps_step_keep dp s4 l5 eq_refl eq_refl) as (N5 & A5 & C5).
  set (s5 := PowerShell.step dp s4 l5) in *.
  repeat split.
  - rewrite N5, N4, N3, N2, N1. now rewrite <- !app_assoc.
  - now rewrite A5, A4, A3.
  - rewrite C5, C4, C3, C2, C1.
    change (PowerShell.is_function l1) with true.
    now rewrite orb_true_r.
Qed.

Lemma ps_add_env_keeps (dp : str) (st : PowerShell.state) (l : str) :
  In l (PowerShell.new_lines st) -> In l (PowerShell.add_env dp st).
Proof.
  intros H. unfold PowerShell.add_env. destruct (negb _); [|exact H].
  apply in_or_app. left. unfold with_spacing.
  destruct (needs_blank _); [apply in_or_app; now left|exact H].
Qed.

Lemma ps_merge_of_function (dp : str) (lines : list str) :
  existsb ps_function_line lines = true ->
  PowerShell.merge dp lines = PowerShell.add_env dp (PowerShell.pass dp lines).
Proof.
  intros H. unfold PowerShell.merge. now rewrite ps_pass_clear, H.
Qed.

Lemma ps_add_env_has_function (dp : str) (lines : list str) :
  existsb ps_function_line lines = true ->
  existsb ps_function_line (PowerShell.add_env dp (PowerShell.pass dp lines)) = true.
Proof.
  intros H. apply existsb_exists in H as (l & Hl & Hf).
  apply existsb_exists. exists l. split; [|exact Hf].
  now apply ps_add_env_keeps, ps_pass_keeps_function_lines.
Qed.

(** After a run the profile always holds a line that counts as the helper. *)
Lemma ps_merge_has_function (dp : str) (lines : list str) :
  existsb ps_function_line (PowerShell.merge dp lines) = true.
Proof.
  destruct (existsb ps_function_line lines) eqn:E.
  - rewrite (ps_merge_of_function dp lines E). now apply ps_add_env_has_function.
  - unfold PowerShell.merge, PowerShell.add_function.
    rewrite ps_pass_clear, E. cbn [negb].
    rewrite existsb_app. apply orb_true_iff. right. reflexivity.
Qed.

Lemma ps_merge_second_tidy (lines : list str) :
  no_double_blank false
    (PowerShell.merge default_profile (PowerShell.merge default_profile lines)) = true.
Proof.
  pose proof (ps_add_env_count_env default_profile lines) as Hcount.
  destruct (existsb ps_function_line lines) eqn:E.
  - rewrite (ps_merge_of_function _ lines E).
    rewrite ps_merge_of_function by now apply ps_add_env_has_function.
    apply ps_add_env_tidy. lia.
  - unfold PowerShell.merge at 2. unfold PowerShell.add_function.
    rewrite ps_pass_clear, E. cbn [negb].
    set (W := with_spacing
                (PowerShell.add_env default_profile
                   (PowerShell.pass default_profile lines))).
    assert (HW : count_lines PowerShell.is_env W = 1).
    { unfold W. now rewrite count_lines_with_spacing. }
    unfold PowerShell.merge, PowerShell.pass. rewrite fold_left_app.
    fold (PowerShell.pass default_profile W).
    destruct (ps_fold_block default_profile (PowerShell.pass default_profile W))
      as (Hn & Ha & Hc).
    { rewrite ps_pass_added, HW. reflexivity. }
    cbv zeta in Hn, Ha, Hc. rewrite Hc. unfold PowerShell.add_function. cbn [negb].
    unfold PowerShell.add_env. rewrite Ha, Hn. cbn [negb].
    rewrite no_double_blank_app_solid by reflexivity.
    apply ps_pass_tidy. lia.
Qed.

Lemma ps_merge_twice (lines : list str) :
  count_lines PowerShell.is_env lines <= 1 ->
  existsb ps_function_line lines = true ->
  PowerShell.merge default_profile (PowerShell.merge default_profile lines)
  = PowerShell.merge default_profile lines.
Proof.
  intros Hc Hf. rewrite (ps_merge_of_function _ lines Hf).
  apply ps_merge_fixed.
  - now apply ps_add_env_tidy.
  - apply ps_add_env_canonical.
  - apply ps_add_env_count_env.
  - now apply ps_add_env_has_function.
Qed.

Lemma ps_merge_thrice (lines : list str) :
  PowerShell.merge default_profile
    (PowerShell.merge default_profile (PowerShell.merge default_profile lines))
  = PowerShell.merge default_profile (PowerShell.merge default_profile lines).
Proof.
  pose proof (ps_merge_has_function default_profile lines) as Hf.
  apply ps_merge_fixed.
  - apply ps_merge_second_tidy.
  - rewrite (ps_merge_of_function _ _ Hf). apply ps_add_env_canonical.
  - rewrite (ps_merge_of_function _ _ Hf). apply ps_add_env_count_env.
  - apply ps_merge_has_function.
Qed.

Lemma ps_pass_origin (dp : str) (lines : list str) :
  forall l, In l (PowerShell.new_lines (PowerShell.pass dp lines)) ->
            In l lines \/ l = PowerShell.aws_env dp.
Proof.
  induction lines as [|x lines IH] using rev_ind; [easy|].
  intros l. rewrite ps_pass_snoc.
  destruct (ps_step_cases dp (PowerShell.pass dp lines) x)
    as [(Hn & _) | [(Hn & _) | (Hn & _)]]; rewrite Hn, ?in_app_iff; cbn [In].
  - intros [H|[<-|[]]]; [destruct (IH l H); tauto|now right].
  - intros [H|[<-|[]]]; [destruct (IH l H); tauto|tauto].
  - intros H. destruct (IH l H); tauto.
Qed.

Lemma ps_merge_origin (dp : str) (lines : list str) :
  forall l, In l (PowerShell.merge dp lines) ->
            In l lines \/ l = PowerShell.aws_env dp \/ l = [] \/
            In l (split ch_newline PowerShell.clear_aws_function).
Proof.
  intros l. unfold PowerShell.merge, PowerShell.add_function, PowerShell.add_env.
  assert (Hstage : In l (if negb (PowerShell.aws_profile_added (PowerShell.pass dp lines))
                         then with_spacing
                                (PowerShell.new_lines (PowerShell.pass dp lines))
                              ++ [PowerShell.aws_env dp]
                         else PowerShell.new_lines (PowerShell.pass dp lines)) ->
                   In l lines \/ l = PowerShell.aws_env dp \/ l = []).
  { destruct (negb (PowerShell.aws_profile_added _)).
    - rewrite in_app_iff. intros [H|[<-|[]]]; [|tauto].
      destruct (in_with_spacing _ _ H) as [->|H']; [tauto|].
      destruct (ps_pass_origin dp lines l H'); tauto.
    - intros H. destruct (ps_pass_origin dp lines l H); tauto. }
  destruct (negb (PowerShell.clear_aws_added _)).
  - rewrite in_app_iff. intros [H|H]; [|tauto].
    destruct (in_with_spacing _ _ H) as [->|H']; [tauto|].
    destruct (Hstage H') as [?|[?|?]]; tauto.
  - intros H. destruct (Hstage H) as [?|[?|?]]; tauto.
Qed.

Lemma ps_merge_single_lines (lines : list str) :
  (forall l, In l lines -> single_line l) ->
  forall l, In l (PowerShell.merge default_profile lines) -> single_line l.
Proof.
  intros H l Hl.
  destruct (ps_merge_origin default_profile lines l Hl) as [Hin | [-> | [-> | Hb]]].
  - now apply H.
  - unfold single_line. vm_compute. intuition discriminate.
  - easy.
  - now apply (split_no_sep ch_newline PowerShell.clear_aws_function).
Qed.

Lemma ps_rewrite_lines (content : str) :
  lines_of (PowerShell.rewrite default_profile content)
  = PowerShell.merge default_profile (lines_of content).
Proof.
  unfold PowerShell.rewrite.
  apply (lines_of_join (PowerShell.aws_env default_profile)).
  - apply ps_merge_env_lines.
  - discriminate.
  - apply ps_merge_single_lines, lines_of_single.
Qed.

(** X19: a PowerShell profile that already holds the canonical assignment
    and no other line mentioning [$env:AWS_DEFAULT_PROFILE], a line with
    [function Clear-AWS], and no two blank lines in a row is written back
    exactly as it was read. *)
Theorem ps_rewrite_configured (content : str) :
  no_double_blank false (lines_of content) = true ->
  (forall l, In l (lines_of content) -> PowerShell.is_env l = true ->
             l = PowerShell.aws_env default_profile) ->
  count_lines PowerShell.is_env (lines_of content) = 1 ->
  existsb ps_function_line (lines_of content) = true ->
  PowerShell.rewrite default_profile content = content.
Proof.
  intros Hndb Hcan Hc Hf. unfold PowerShell.rewrite.
  rewrite ps_merge_fixed; try assumption. apply join_lines_of.
Qed.

Lemma ps_rewrite_configured_witness :
  no_double_blank false (lines_of sample_configured_ps_profile) = true /\
  (forall l, In l (lines_of sample_configured_ps_profile) ->
             PowerShell.is_env l = true -> l = PowerShell.aws_env default_profile) /\
  count_lines PowerShell.is_env (lines_of sample_configured_ps_profile) = 1 /\
  existsb ps_function_line (lines_of sample_configured_ps_profile) = true /\
  PowerShell.rewrite default_profile sample_configured_ps_profile
  = sample_configured_ps_profile.
Proof.
  assert (H1 : no_double_blank false (lines_of sample_configured_ps_profile) = true)
    by (vm_compute; reflexivity).
  assert (H2 : forall l, In l (lines_of sample_configured_ps_profile) ->
                         PowerShell.is_env l = true ->
                         l = PowerShell.aws_env default_profile).
  { assert (E : forallb (fun l => implb (PowerShell.is_env l)
                                    (str_eqb l (PowerShell.aws_env default_profile)))
                  (lines_of sample_configured_ps_profile) = true)
      by (vm_compute; reflexivity).
    rewrite forallb_forall in E. intros l Hl He. specialize (E l Hl).
    rewrite He in E. now apply str_eqb_eq. }
  assert (H3 : count_lines PowerShell.is_env (lines_of sample_configured_ps_profile) = 1)
    by (vm_compute; reflexivity).
  assert (H4 : existsb ps_function_line (lines_of sample_configured_ps_profile) = true)
    by (vm_compute; reflexivity).
  exact (conj H1 (conj H2 (conj H3 (conj H4
    (ps_rewrite_configured sample_configured_ps_profile H1 H2 H3 H4))))).
Defined.

(** X20: when the PowerShell profile read has at most one line mentioning
    [$env:AWS_DEFAULT_PROFILE] and already has a line with
    [function Clear-AWS] that does not mention the variable, running the
    adapter a second time writes exactly what the first run wrote. *)
Theorem ps_rewrite_idempotent (content : str) :
  count_lines PowerShell.is_env (lines_of content) <= 1 ->
  existsb ps_function_line (lines_of content) = true ->
  PowerShell.rewrite default_profile (PowerShell.rewrite default_profile content)
  = PowerShell.rewrite default_profile content.
Proof.
  intros Hc Hf. unfold PowerShell.rewrite at 1.
  rewrite ps_rewrite_lines, (ps_merge_twice _ Hc Hf). reflexivity.
Qed.

Lemma ps_rewrite_idempotent_witness :
  count_lines PowerShell.is_env (lines_of sample_ps_profile) <= 1 /\
  existsb ps_function_line (lines_of sample_ps_profile) = true /\
  PowerShell.rewrite default_profile (PowerShell.rewrite default_profile sample_ps_profile)
  = PowerShell.rewrite default_profile sample_ps_profile.
Proof.
  assert (H1 : count_lines PowerShell.is_env (lines_of sample_ps_profile) <= 1)
    by (vm_compute; lia).
  assert (H2 : existsb ps_function_line (lines_of sample_ps_profile) = true)
    by (vm_compute; reflexivity).
  exact (conj H1 (conj H2 (ps_rewrite_idempotent sample_ps_profile H1 H2))).
Defined.

(** X21: for every PowerShell profile, the adapter reaches a fixed point
    after at most two runs: a third run writes exactly what the second run
    wrote (the second run may still differ from the first, by the helper
    block's assignment line). *)
Theorem ps_rewrite_stabilises (content : str) :
  PowerShell.rewrite default_profile
    (PowerShell.rewrite default_profile (PowerShell.rewrite default_profile content))
  = PowerShell.rewrite default_profile (PowerShell.rewrite default_profile content).
Proof.
  set (once := PowerShell.rewrite default_profile content).
  unfold PowerShell.rewrite at 1. rewrite ps_rewrite_lines.
  unfold PowerShell.rewrite at 1. f_equal.
  subst once. rewrite ps_rewrite_lines. apply ps_merge_thrice.
Qed.

(** ** What the adapters leave of the user's lines *)

Lemma bash_user_line_facts :
  bash_user_line [] = false /\
  bash_user_line (Bash.aws_export default_profile) = false /\
  bash_user_line Bash.clear_aws_alias = true.
Proof. repeat split. Qed.

Lemma filter_with_spacing (p : str -> bool) (ls : list str) :
  p [] = false -> filter p (with_spacing ls) = filter p ls.
Proof.
  intros Hp. unfold with_spacing. destruct (needs_blank ls); [|reflexivity].
  rewrite filter_app. cbn [filter]. rewrite Hp. apply app_nil_r.
Qed.

Lemma bash_pass_user_lines (lines : list str) :
  filter bash_user_line (Bash.new_lines (Bash.pass default_profile lines))
  = filter bash_user_line lines.
Proof.
  induction lines as [|l lines IH] using rev_ind; [reflexivity|].
  rewrite bash_pass_snoc, filter_app. unfold Bash.step.
  cbn [filter]. unfold bash_user_line at 3.
  destruct (is_blank l) eqn:Hb.
  - cbn [negb andb]. rewrite app_nil_r.
    destruct (_ <=? 1); cbn [Bash.new_lines]; [|exact IH].
    rewrite filter_app, IH. cbn [filter]. unfold bash_user_line at 2.
    rewrite Hb. cbn [negb andb]. apply app_nil_r.
  - destruct (Bash.is_export l) eqn:He; cbn [negb andb].
    + rewrite app_nil_r.
      destruct (negb (Bash.aws_profile_added _)); cbn [Bash.new_lines]; [|exact IH].
      rewrite filter_app, IH. cbn [filter].
      rewrite (proj1 (proj2 bash_user_line_facts)). apply app_nil_r.
    + cbn [Bash.new_lines]. rewrite filter_app, IH. cbn [filter].
      unfold bash_user_line at 2. now rewrite Hb, He.
Qed.

(** X22: the POSIX adapter never loses, changes or reorders what the user
    wrote: the non-blank lines of the [.bashrc] that are not export lines of
    the variable come out in the same order, followed by the alias line when
    the adapter had to add it. *)
Theorem bash_merge_keeps_user_lines (lines : list str) :
  exists tail,
    filter bash_user_line (Bash.merge default_profile lines)
    = filter bash_user_line lines ++ tail /\
    (tail = [] \/ tail = [Bash.clear_aws_alias]).
Proof.
  assert (Hstage : filter bash_user_line
                     (Bash.add_export default_profile (Bash.pass default_profile lines))
                   = filter bash_user_line lines).
  { unfold Bash.add_export. destruct (negb _); [|apply bash_pass_user_lines].
    rewrite filter_app, filter_with_spacing by reflexivity.
    rewrite bash_pass_user_lines. cbn [filter].
    rewrite (proj1 (proj2 bash_user_line_facts)). apply app_nil_r. }
  unfold Bash.merge, Bash.add_alias. destruct (negb (contains _ _)).
  - exists [Bash.clear_aws_alias]. split; [|now right].
    rewrite filter_app, Hstage. reflexivity.
  - exists []. split; [|now left]. now rewrite app_nil_r.
Qed.

Lemma ps_pass_user_lines (dp : str) (lines : list str) :
  filter ps_user_line (PowerShell.new_lines (PowerShell.pass dp lines))
  = filter ps_user_line lines.
Proof.
  assert (Henv : ps_user_line (PowerShell.aws_env dp) = false).
  { unfold ps_user_line. now rewrite env_is_env, andb_false_r. }
  induction lines as [|l lines IH] using rev_ind; [reflexivity|].
  rewrite ps_pass_snoc, filter_app. unfold PowerShell.step.
  cbn [filter]. unfold ps_user_line at 3.
  destruct (is_blank l) eqn:Hb.
  - cbn [negb andb]. rewrite app_nil_r.
    destruct (_ <=? 1); cbn [PowerShell.new_lines]; [|exact IH].
    rewrite filter_app, IH. cbn [filter]. unfold ps_user_line at 2.
    rewrite Hb. cbn [negb andb]. apply app_nil_r.
  - destruct (PowerShell.is_env l) eqn:He; cbn [negb andb].
    + rewrite app_nil_r.
      destruct (negb (PowerShell.aws_profile_added _));
        cbn [PowerShell.new_lines]; [|exact IH].
      rewrite filter_app, IH. cbn [filter]. rewrite Henv. apply app_nil_r.
    + destruct (PowerShell.is_function l); cbn [PowerShell.new_lines];
        rewrite filter_app, IH; cbn [filter]; unfold ps_user_line at 2;
        now rewrite Hb, He.
Qed.

(** X23: the PowerShell adapter never loses, changes or reorders what the
    user wrote: the non-blank lines of the profile that do not mention
    [$env:AWS_DEFAULT_PROFILE] come out in the same order, followed, when the
    adapter had to add the helper, by the four lines of its block that do not
    mention the variable. *)
Theorem ps_merge_keeps_user_lines (lines : list str) :
  exists tail,
    filter ps_user_line (PowerShell.merge default_profile lines)
    = filter ps_user_line lines ++ tail /\
    (tail = [] \/ tail = clear_aws_block_without_assignment).
Proof.
  assert (Henv : ps_user_line (PowerShell.aws_env default_profile) = false)
    by reflexivity.
  assert (Hstage : filter ps_user_line
                     (PowerShell.add_env default_profile
                        (PowerShell.pass default_profile lines))
                   = filter ps_user_line lines).
  { unfold PowerShell.add_env. destruct (negb _); [|apply ps_pass_user_lines].
    rewrite filter_app, filter_with_spacing by reflexivity.
    rewrite ps_pass_user_lines. cbn [filter]. rewrite Henv. apply app_nil_r. }
  unfold PowerShell.merge, PowerShell.add_function.
  destruct (negb (PowerShell.clear_aws_added _)).
  - exists clear_aws_block_without_assignment. split; [|now right].
    rewrite filter_app, filter_with_spacing by reflexivity.
    rewrite Hstage. f_equal.
  - exists []. split; [|now left]. now rewrite app_nil_r.
Qed.

(** ** What every run leaves behind *)

Lemma ps_merge_tidy (lines : list str) :
  count_lines PowerShell.is_env lines <= 1 ->
  no_double_blank false (PowerShell.merge default_profile lines) = true.
Proof.
  intros Hc. unfold PowerShell.merge, PowerShell.add_function.
  destruct (negb _); [|now apply ps_add_env_tidy].
  rewrite no_double_blank_app_solid by reflexivity.
  rewrite no_double_blank_with_spacing. now apply ps_add_env_tidy.
Qed.

(** X24: after a run of either adapter the helper is there: the [.bashrc]
    written contains the alias text, and the PowerShell profile written has a
    non-blank line with [function Clear-AWS] that does not mention the
    variable. *)
Theorem rewrite_leaves_helper (content : str) :
  contains Bash.clear_aws_alias (Bash.rewrite default_profile content) = true /\
  existsb ps_function_line
    (lines_of (PowerShell.rewrite default_profile content)) = true.
Proof.
  split.
  - apply bash_merge_has_alias.
  - rewrite ps_rewrite_lines. apply ps_merge_has_function.
Qed.

(** X25: when at most one line of the [.bashrc] read contains both [export]
    and the variable's name, the file the POSIX adapter writes has no two
    blank lines in a row, however many the file read had: every run of blank
    lines is reduced to one line. *)
Theorem bash_rewrite_collapses_blank_runs (content : str) :
  count_lines Bash.is_export (lines_of content) <= 1 ->
  no_double_blank false (lines_of (Bash.rewrite default_profile content)) = true.
Proof.
  intros Hc. rewrite bash_rewrite_lines. now apply bash_merge_tidy.
Qed.

Lemma bash_rewrite_collapses_blank_runs_witness :
  count_lines Bash.is_export (lines_of sample_spaced_bashrc) <= 1 /\
  no_double_blank false (lines_of sample_spaced_bashrc) = false /\
  no_double_blank false
    (lines_of (Bash.rewrite default_profile sample_spaced_bashrc)) = true.
Proof.
  assert (H : count_lines Bash.is_export (lines_of sample_spaced_bashrc) <= 1)
    by (vm_compute; lia).
  split; [exact H|]. split; [reflexivity|].
  exact (bash_rewrite_collapses_blank_runs sample_spaced_bashrc H).
Defined.

(** X26: when at most one line of the PowerShell profile read mentions
    [$env:AWS_DEFAULT_PROFILE], the file the PowerShell adapter writes has no
    two blank lines in a row, however many the file read had. *)
Theorem ps_rewrite_collapses_blank_runs (content : str) :
  count_lines PowerShell.is_env (lines_of content) <= 1 ->
  no_double_blank false
    (lines_of (PowerShell.rewrite default_profile content)) = true.
Proof.
  intros Hc. rewrite ps_rewrite_lines. now apply ps_merge_tidy.
Qed.

Lemma ps_rewrite_collapses_blank_runs_witness :
  count_lines PowerShell.is_env (lines_of sample_spaced_ps_profile) <= 1 /\
  no_double_blank false (lines_of sample_spaced_ps_profile) = false /\
  no_double_blank false
    (lines_of (PowerShell.rewrite default_profile sample_spaced_ps_profile)) = true.
Proof.
  assert (H : count_lines PowerShell.is_env (lines_of sample_spaced_ps_profile) <= 1)
    by (vm_compute; lia).
  split; [exact H|]. split; [reflexivity|].
  exact (ps_rewrite_collapses_blank_runs sample_spaced_ps_profile H).
Defined.
